(** * facefusion/utilities.py: the call-logging decorator

    A shallow embedding of [format_value] and of the [wrapper] that
    [log_call_path] returns, with the Python runtime they touch:
    values and their [str]/[repr] conversions, exceptions, the log files,
    the console, the process-wide trace hook of [sys.settrace] and the
    clock.

    Conventions.
    - A Python [str] is a [string] whose characters are code points
      below 256.
    - [exn] stands for instances of [Exception], with the text [str(e)]
      returns when it returns; the handlers with [str(e)] as a call that
      may raise are given beside the wrapper.  The signals that derive
      from [BaseException] only ([KeyboardInterrupt], [SystemExit]) are
      outside the model, so [except Exception] is the handler of every
      modelled exception.
    - Of the file system the wrapper sees the text of each file and whether
      a call of [open] raises; an [open] that succeeds is followed by
      writes that succeed.
    - Floats are not modelled: clock readings are integers counting
      ten-thousandths of a second, the precision of the [.4f] fields. *)

From Stdlib Require Import String Ascii ZArith List Lia Bool DecimalString.
From stdpp Require Import gmap strings.
Import ListNotations.
Open Scope string_scope.
#[local] Arguments String.append !s1 s2 : simpl nomatch.

(** ** Text helpers *)

Definition dquote : ascii := "034"%char.
Definition newline : string := String "010"%char EmptyString.

Definition chars (s : string) : list ascii := list_ascii_of_string s.

Definition contains_char (c : ascii) (s : string) : bool :=
  existsb (Ascii.eqb c) (chars s).

Fixpoint concat_strings (l : list string) : string :=
  match l with
  | [] => EmptyString
  | s :: rest => s ++ concat_strings rest
  end.

(** [sep.join(l)] *)
Fixpoint join (sep : string) (l : list string) : string :=
  match l with
  | [] => EmptyString
  | [s] => s
  | s :: rest => s ++ sep ++ join sep rest
  end.

(** ['='*n] and friends *)
Fixpoint repeat_string (s : string) (n : nat) : string :=
  match n with
  | O => EmptyString
  | S k => s ++ repeat_string s k
  end.

(** [s.startswith(p)] *)
Definition startswith (p s : string) : bool := String.prefix p s.

(** [s.split('/')[-1]]: the text after the last slash. *)
Fixpoint last_segment_from (acc : string) (l : list ascii) : string :=
  match l with
  | [] => acc
  | c :: rest =>
      if Ascii.eqb c "/"%char then last_segment_from EmptyString rest
      else last_segment_from (acc ++ String c EmptyString) rest
  end.

Definition last_path_segment (s : string) : string :=
  last_segment_from EmptyString (chars s).

(** [str(n)] for an [int] *)
Definition show_Z (z : Z) : string := NilZero.string_of_int (Z.to_int z).

Definition hex_digit (n : nat) : ascii :=
  nth n (chars "0123456789abcdef") "0"%char.

Definition hex2 (n : nat) : string :=
  String (hex_digit (n / 16)) (String (hex_digit (n mod 16)) EmptyString).

(** [f"{d:.4f}"] for a duration given in ten-thousandths of a second. *)
Definition pad4 (z : Z) : string :=
  let s := show_Z z in
  repeat_string "0" (4 - String.length s) ++ s.

Definition format_4f (ticks : Z) : string :=
  let a := Z.abs ticks in
  (if (ticks <? 0)%Z then "-" else EmptyString)
    ++ show_Z (a / 10000) ++ "." ++ pad4 (a mod 10000).

(** ** [repr] of a [str]

    CPython's [unicode_repr]: single quotes unless the text holds a single
    quote and no double quote; the quote and the backslash are escaped,
    tab, newline and carriage return are written symbolically, and what is
    not printable is written [\xNN]. *)

Definition repr_quote (s : string) : ascii :=
  if contains_char "'"%char s && negb (contains_char dquote s)
  then dquote else "'"%char.

Definition repr_char (q c : ascii) : string :=
  let n := nat_of_ascii c in
  if Ascii.eqb c q || Ascii.eqb c "\"%char then String "\"%char (String c EmptyString)
  else if Nat.eqb n 9 then "\t"
  else if Nat.eqb n 10 then "\n"
  else if Nat.eqb n 13 then "\r"
  else if Nat.ltb n 32 || Nat.eqb n 127 then "\x" ++ hex2 n
  else if Nat.ltb n 127 then String c EmptyString
  else if Nat.leb n 160 || Nat.eqb n 173 then "\x" ++ hex2 n
  else String c EmptyString.

Definition repr_str (s : string) : string :=
  let q := repr_quote s in
  String q (concat_strings (map (repr_char q) (chars s))) ++ String q EmptyString.

(** ** Exceptions and results *)

Record exn : Type := Exn {
  exn_type : string;        (* type(e).__name__ *)
  exn_msg : string;         (* what str(e) returns, when it returns *)
  exn_traceback : string    (* traceback.format_exc() while e is handled *)
}.

Inductive result (A : Type) : Type :=
| Ok (a : A)
| Raise (e : exn).
Arguments Ok {A} a.
Arguments Raise {A} e.

Definition result_map {A B} (f : A -> B) (r : result A) : result B :=
  match r with
  | Ok a => Ok (f a)
  | Raise e => Raise e
  end.

Definition result_bind {A B} (r : result A) (f : A -> result B) : result B :=
  match r with
  | Ok a => f a
  | Raise e => Raise e
  end.

(** Evaluate left to right; the first exception wins. *)
Fixpoint sequence {A} (l : list (result A)) : result (list A) :=
  match l with
  | [] => Ok []
  | r :: rest =>
      result_bind r (fun a => result_map (cons a) (sequence rest))
  end.

Definition is_ok {A} (r : result A) : bool :=
  match r with Ok _ => true | Raise _ => false end.

(** ** Python values

    Built-in scalars and containers are structural.  Every other object
    is described by what the code can observe of it: which of the
    [isinstance]/[hasattr] tests it passes, its class name, and what its
    [__str__] and [__repr__] do. *)

Inductive obj_kind : Type :=
| KArgumentParser                              (* argparse.ArgumentParser or a subclass *)
| KNdarray (shape : list Z) (dtype : string)   (* numpy.ndarray: value.shape, str(value.dtype) *)
| KInstance (has_dict : bool).                 (* any other class; has_dict = hasattr(value, '__dict__') *)

#[local] Unset Elimination Schemes.
Inductive value : Type :=
| VNone
| VBool (b : bool)
| VInt (n : Z)
| VStr (s : string)
| VList (items : list value)
| VTuple (items : list value)
| VDict (entries : list (value * value))
| VObject (kind : obj_kind) (cls : string) (str_ repr_ : result string).
#[local] Set Elimination Schemes.

Definition tuple_text (parts : list string) : string :=
  match parts with
  | [p] => "(" ++ p ++ ",)"
  | _ => "(" ++ join ", " parts ++ ")"
  end.

(** [repr(v)] *)
Fixpoint py_repr (v : value) : result string :=
  match v with
  | VNone => Ok "None"
  | VBool b => Ok (if b then "True" else "False")
  | VInt n => Ok (show_Z n)
  | VStr s => Ok (repr_str s)
  | VList items =>
      result_map (fun parts => "[" ++ join ", " parts ++ "]")
                 (sequence (map py_repr items))
  | VTuple items =>
      result_map tuple_text (sequence (map py_repr items))
  | VDict entries =>
      result_map (fun parts => "{" ++ join ", " parts ++ "}")
        (sequence (map (fun kv =>
                          let '(k, x) := kv in
                          result_bind (py_repr k) (fun rk =>
                          result_map (fun rx => rk ++ ": " ++ rx) (py_repr x)))
                       entries))
  | VObject _ _ _ repr_ => repr_
  end.

(** [str(v)] *)
Definition py_str (v : value) : result string :=
  match v with
  | VStr s => Ok s
  | VObject _ _ str_ _ => str_
  | _ => py_repr v
  end.

(** ** format_value *)

Definition isinstance_ArgumentParser (v : value) : bool :=
  match v with VObject KArgumentParser _ _ _ => true | _ => false end.

Definition isinstance_ndarray (v : value) : bool :=
  match v with VObject (KNdarray _ _) _ _ _ => true | _ => false end.

Definition isinstance_list_tuple (v : value) : bool :=
  match v with VList _ | VTuple _ => true | _ => false end.

Definition isinstance_dict (v : value) : bool :=
  match v with VDict _ => true | _ => false end.

(** [hasattr(value, '__dict__')]: instances of Python-level classes, the
    argument parser among them; not the built-in types nor arrays. *)
Definition hasattr___dict__ (v : value) : bool :=
  match v with
  | VObject KArgumentParser _ _ _ => true
  | VObject (KInstance has_dict) _ _ _ => has_dict
  | _ => false
  end.

(** [value.shape], [value.dtype], [type(value).__name__], [len(value)],
    [list(value.keys())] and [value.__class__.__name__], each read only
    under the test that guards it. *)
Definition shape_of (v : value) : list Z :=
  match v with VObject (KNdarray shape _) _ _ _ => shape | _ => [] end.

Definition dtype_of (v : value) : string :=
  match v with VObject (KNdarray _ dtype) _ _ _ => dtype | _ => EmptyString end.

Definition type_name (v : value) : string :=
  match v with
  | VNone => "NoneType"
  | VBool _ => "bool"
  | VInt _ => "int"
  | VStr _ => "str"
  | VList _ => "list"
  | VTuple _ => "tuple"
  | VDict _ => "dict"
  | VObject _ cls _ _ => cls
  end.

Definition len (v : value) : Z :=
  match v with
  | VList items | VTuple items => Z.of_nat (List.length items)
  | _ => 0%Z
  end.

Definition dict_keys (v : value) : list value :=
  match v with VDict entries => map fst entries | _ => [] end.

Definition format_value (v : value) : result string :=
  if isinstance_ArgumentParser v then Ok "ArgumentParser()"
  else if isinstance_ndarray v then
    Ok ("ndarray(shape=" ++ tuple_text (map show_Z (shape_of v))
          ++ ", dtype=" ++ dtype_of v ++ ")")
  else if isinstance_list_tuple v then
    Ok (type_name v ++ "(len=" ++ show_Z (len v) ++ ")")
  else if isinstance_dict v then
    result_map (fun keys => "dict(keys=" ++ keys ++ ")")
               (py_str (VList (dict_keys v)))
  else if hasattr___dict__ v then Ok (type_name v ++ "()")
  else py_str v.

(** ** String-keyed dictionaries

    The dictionaries the wrapper builds ([kwargs_repr], the [args] of a
    nested call) keep insertion order, which their rendering shows; an
    assignment to a key already present replaces its value in place. *)

Fixpoint dict_get {V} (k : string) (d : list (string * V)) : option V :=
  match d with
  | [] => None
  | (k', x) :: rest => if String.eqb k k' then Some x else dict_get k rest
  end.

Fixpoint dict_set {V} (k : string) (x : V) (d : list (string * V)) : list (string * V) :=
  match d with
  | [] => [(k, x)]
  | (k', x') :: rest =>
      if String.eqb k k' then (k, x) :: rest else (k', x') :: dict_set k x rest
  end.

(** [str(l)] for a list of [str], [str(d)] for a dict from [str] to [str]. *)
Definition str_of_str_list (l : list string) : string :=
  "[" ++ join ", " (map repr_str l) ++ "]".

Definition str_of_str_dict (d : list (string * string)) : string :=
  "{" ++ join ", " (map (fun kv => repr_str (fst kv) ++ ": " ++ repr_str (snd kv)) d) ++ "}".

(** ** json.dumps

    With the default [ensure_ascii=True]: the double quote, the backslash
    and the usual control characters are escaped symbolically, and every
    other character outside [' '..'~'] as [\u00NN]. *)

Definition json_escape_char (c : ascii) : string :=
  let n := nat_of_ascii c in
  if Ascii.eqb c dquote then String "\"%char (String dquote EmptyString)
  else if Ascii.eqb c "\"%char then "\\"
  else if Nat.eqb n 10 then "\n"
  else if Nat.eqb n 13 then "\r"
  else if Nat.eqb n 9 then "\t"
  else if Nat.eqb n 8 then "\b"
  else if Nat.eqb n 12 then "\f"
  else if Nat.ltb n 32 || Nat.ltb 126 n then "\u00" ++ hex2 n
  else String c EmptyString.

Definition json_string (s : string) : string :=
  String dquote (concat_strings (map json_escape_char (chars s)))
    ++ String dquote EmptyString.

(** ** Frames and nested-call records *)

Record frame : Type := Frame {
  co_name : string;                   (* frame.f_code.co_name *)
  co_filename : string;               (* frame.f_code.co_filename *)
  arg_names : list string;            (* inspect.getargvalues(frame).args *)
  f_locals : list (string * value)    (* inspect.getargvalues(frame).locals *)
}.

Inductive call_args : Type :=
| ArgsDict (d : list (string * string))
| ArgsText (s : string).

Record nested_call : Type := NestedCall {
  nc_function : string;
  nc_file : string;
  nc_args : call_args
}.

(** [json.dumps(call, indent=2)] for a record of [nested_calls]. *)
Definition json_member (k v : string) : string := json_string k ++ ": " ++ v.

Definition json_args (a : call_args) : string :=
  match a with
  | ArgsText s => json_string s
  | ArgsDict [] => "{}"
  | ArgsDict d =>
      "{" ++ newline ++ "    "
        ++ join ("," ++ newline ++ "    ")
                (map (fun kv => json_member (fst kv) (json_string (snd kv))) d)
        ++ newline ++ "  }"
  end.

Definition json_dumps_call (c : nested_call) : string :=
  "{" ++ newline ++ "  "
    ++ join ("," ++ newline ++ "  ")
            [ json_member "function" (json_string (nc_function c));
              json_member "file" (json_string (nc_file c));
              json_member "args" (json_args (nc_args c)) ]
    ++ newline ++ "}".

(** The trace function installed with [sys.settrace]: it acts on the
    [nested_calls] list its closure captured, threaded here explicitly. *)
Definition tracefunc : Type := frame -> string -> list nested_call -> list nested_call.

(** ** The world *)

Record world : Type := World {
  files : gmap string string;        (* path -> text of the file *)
  dirs : gset string;                (* existing directories *)
  stdout : string;                   (* what print has written *)
  io_faults : list (option exn);     (* fate of each coming open(): Some e raises e *)
  trace_hook : option tracefunc;     (* sys.gettrace() *)
  clock : Z                          (* time.time(), in ten-thousandths of a second *)
}.

Definition set_files (f : gmap string string) (w : world) : world :=
  World f (dirs w) (stdout w) (io_faults w) (trace_hook w) (clock w).
Definition set_dirs (d : gset string) (w : world) : world :=
  World (files w) d (stdout w) (io_faults w) (trace_hook w) (clock w).
Definition set_stdout (o : string) (w : world) : world :=
  World (files w) (dirs w) o (io_faults w) (trace_hook w) (clock w).
Definition set_io_faults (l : list (option exn)) (w : world) : world :=
  World (files w) (dirs w) (stdout w) l (trace_hook w) (clock w).
Definition set_trace_hook (h : option tracefunc) (w : world) : world :=
  World (files w) (dirs w) (stdout w) (io_faults w) h (clock w).
Definition set_clock (t : Z) (w : world) : world :=
  World (files w) (dirs w) (stdout w) (io_faults w) (trace_hook w) t.

(** Text of a file; a file that does not exist reads as empty. *)
Definition file_text (path : string) (w : world) : string :=
  default EmptyString (files w !! path).

(** ** The monad of Python statements: state that survives exceptions *)

Definition M (A : Type) : Type := world -> result A * world.

Definition ret {A} (a : A) : M A := fun w => (Ok a, w).

Definition bind {A B} (m : M A) (k : A -> M B) : M B := fun w =>
  match m w with
  | (Ok a, w') => k a w'
  | (Raise e, w') => (Raise e, w')
  end.

Definition raise {A} (e : exn) : M A := fun w => (Raise e, w).

(** [try: body / except Exception as e: handler e] *)
Definition try_except {A} (body : M A) (handler : exn -> M A) : M A := fun w =>
  match body w with
  | (Ok a, w') => (Ok a, w')
  | (Raise e, w') => handler e w'
  end.

(** A pure computation that may raise. *)
Definition lift {A} (r : result A) : M A := fun w => (r, w).

Declare Scope py_scope.
Delimit Scope py_scope with py.
Notation "x <- c1 ;; c2" := (bind c1 (fun x => c2))
  (at level 100, c1 at next level, right associativity) : py_scope.
Notation "c1 ;; c2" := (bind c1 (fun _ => c2))
  (at level 100, right associativity) : py_scope.
Open Scope py_scope.

Fixpoint for_each {A} (l : list A) (body : A -> M unit) : M unit :=
  match l with
  | [] => ret tt
  | a :: rest => body a ;; for_each rest body
  end.

(** ** Runtime services *)

Definition os_path_exists (path : string) : M bool := fun w =>
  (Ok (bool_decide (path ∈ dirs w)), w).

Definition os_makedirs (path : string) : M unit := fun w =>
  (Ok tt, set_dirs ({[path]} ∪ dirs w) w).

Definition os_path_join (dir name : string) : string := dir ++ "/" ++ name.

Definition time_time : M Z := fun w => (Ok (clock w), w).

Definition sys_settrace (h : option tracefunc) : M unit := fun w =>
  (Ok tt, set_trace_hook h w).

Definition print (line : string) : M unit := fun w =>
  (Ok tt, set_stdout (stdout w ++ line ++ newline) w).

(** [open(path, 'a', encoding='utf-8')]: the next entry of [io_faults]
    decides whether it raises; otherwise the file exists from now on. *)
Definition open_append (path : string) : M unit := fun w =>
  match io_faults w with
  | Some e :: rest => (Raise e, set_io_faults rest w)
  | None :: rest =>
      (Ok tt, set_files (<[path := file_text path w]> (files w)) (set_io_faults rest w))
  | [] => (Ok tt, set_files (<[path := file_text path w]> (files w)) w)
  end.

(** [f.write(text)] on a file opened for appending. *)
Definition file_write (path text : string) : M unit := fun w =>
  (Ok tt, set_files (<[path := file_text path w ++ text]> (files w)) w).

(** The loop that writes an entry to the log files (it occurs three
    times in [wrapper], for the entry, the completion and the error):
<<
    for file_path in [log_file, func_log_file]:
        with open(file_path, 'a', encoding='utf-8') as f:
            for line in entry:
                print(line)
                f.write(line + '\n')
>> *)
Definition write_entry (paths : list string) (entry : list string) : M unit :=
  for_each paths (fun file_path =>
    open_append file_path ;;
    for_each entry (fun line =>
      print line ;;
      file_write file_path (line ++ newline))).

(** ** Callables and the site of a call *)

(** What running a callable on given arguments does, as far as the
    wrapper can tell: the trace events the interpreter reports while it
    runs (the entry of its own frame first, then those of the calls it
    makes), the time it takes, and how it ends. *)
Record behaviour : Type := Behaviour {
  events : list (string * frame);    (* (event, frame) pairs, in order *)
  elapsed : Z;
  outcome : result value
}.

Record callable : Type := Callable {
  __name__ : string;                 (* func.__name__ *)
  source_file : string;              (* inspect.getfile(func) *)
  body : list value -> list (string * value) -> behaviour
}.

Record frame_info : Type := FrameInfo {
  filename : string;
  function : string
}.

(** What [wrapper] reads from the interpreter on entry. *)
Record call_site : Type := CallSite {
  caller_frame : option frame;       (* inspect.currentframe().f_back *)
  stack : list frame_info;           (* inspect.stack() *)
  date_stamp : string;               (* datetime.now().strftime('%Y%m%d') *)
  time_stamp : string                (* datetime.now().strftime('%Y-%m-%d %H:%M:%S.%f') *)
}.

(** Calling [func] on [args] and [kwargs]: every event of the run is handed to the
    trace function installed at that time, then the run ends. *)
Definition call (func : callable) (args : list value) (kwargs : list (string * value))
    (nested_calls : list nested_call) : M (value * list nested_call) := fun w =>
  let b := body func args kwargs in
  let nested_calls' :=
    match trace_hook w with
    | Some hook => fold_left (fun acc ev => hook (snd ev) (fst ev) acc) (events b) nested_calls
    | None => nested_calls
    end in
  let w' := set_clock (clock w + elapsed b) w in
  match outcome b with
  | Ok r => (Ok (r, nested_calls'), w')
  | Raise e => (Raise e, w')
  end.

(** ** trace_calls *)

(** [{name: format_value(args_info.locals[name])
      for name in args_info.args if name in args_info.locals}] *)
Fixpoint format_frame_args (names : list string) (locals : list (string * value))
    (acc : list (string * string)) : result (list (string * string)) :=
  match names with
  | [] => Ok acc
  | name :: rest =>
      match dict_get name locals with
      | Some x =>
          result_bind (format_value x) (fun s =>
            format_frame_args rest locals (dict_set name s acc))
      | None => format_frame_args rest locals acc
      end
  end.

Definition trace_calls : tracefunc := fun fr event nested_calls =>
  if String.eqb event "call" then
    let func_name := co_name fr in
    if negb (startswith "_" func_name) then
      match format_frame_args (arg_names fr) (f_locals fr) [] with
      | Ok args_dict =>
          app nested_calls [ NestedCall func_name
                                        (last_path_segment (co_filename fr))
                                        (ArgsDict args_dict) ]
      | Raise e =>
          app nested_calls [ NestedCall func_name
                                        (last_path_segment (co_filename fr))
                                        (ArgsText ("<error getting args: " ++ exn_msg e ++ ">")) ]
      end
    else nested_calls
  else nested_calls.

(** ** wrapper *)

(** [{k: format_value(v) for k, v in kwargs.items()}] *)
Fixpoint format_kwargs (kwargs : list (string * value)) (acc : list (string * string))
    : result (list (string * string)) :=
  match kwargs with
  | [] => Ok acc
  | (k, x) :: rest =>
      result_bind (format_value x) (fun s => format_kwargs rest (dict_set k s acc))
  end.

(** The body of the first [try]: both comprehensions, in order. *)
Definition format_arguments (args : list value) (kwargs : list (string * value))
    : result (list string * list (string * string)) :=
  result_bind (sequence (map format_value args)) (fun args_repr =>
  result_bind (format_kwargs kwargs []) (fun kwargs_repr =>
  Ok (args_repr, kwargs_repr))).

Definition banner : string := repeat_string "=" 100.

(** Lines 40-55 and 66-75: the caller, the call stack and the entry. *)
Definition log_entry (func : callable) (site : call_site)
    (args : list value) (kwargs : list (string * value))
    (args_repr : list string) (kwargs_repr : list (string * string)) : list string :=
  let caller_name := match caller_frame site with Some f => co_name f | None => "unknown" end in
  let caller_file :=
    match caller_frame site with
    | Some f => last_path_segment (co_filename f)
    | None => "unknown"
    end in
  let func_name := __name__ func in
  let func_file := last_path_segment (source_file func) in
  let call_stack :=
    join " -> " (map (fun f => last_path_segment (filename f) ++ "::" ++ function f)
                     (tl (stack site))) in
  let current_time := time_stamp site in
  [ newline ++ banner;
    "[TIMESTAMP] " ++ current_time;
    "[CALL STACK] " ++ call_stack;
    "[FUNCTION] " ++ func_file ++ "::" ++ func_name;
    "[CALLER] " ++ caller_file ++ "::" ++ caller_name;
    "[ARGS] " ++ (match args with [] => "None" | _ => str_of_str_list args_repr end);
    "[KWARGS] " ++ (match kwargs with [] => "None" | _ => str_of_str_dict kwargs_repr end);
    "[START] Function execution started" ].

Definition completion_entry (nested_calls : list nested_call) (result_repr : string)
    (duration : Z) : list string :=
  (newline ++ "[NESTED CALLS]")
    :: app (map (fun c => "  " ++ json_dumps_call c) nested_calls)
           [ newline ++ "[RESULT] " ++ result_repr;
             "[DURATION] " ++ format_4f duration ++ " seconds";
             "[END] Function execution completed successfully";
             banner ++ newline ].

Definition error_entry (func_name : string) (e : exn) (duration : Z) : list string :=
  [ newline ++ "[ERROR] Exception in " ++ func_name ++ ": " ++ exn_msg e;
    "[TRACEBACK] " ++ exn_traceback e;
    "[DURATION] " ++ format_4f duration ++ " seconds";
    "[END] Function execution failed";
    banner ++ newline ].

Definition log_dir : string := "logs".

Definition log_file (site : call_site) : string :=
  os_path_join log_dir ("facefusion_" ++ date_stamp site ++ ".log").

Definition func_log_file (func : callable) (site : call_site) : string :=
  os_path_join log_dir ("facefusion_" ++ __name__ func ++ "_" ++ date_stamp site ++ ".log").

(** Lines 149-166: the handler of the second [try]. *)
Definition on_exception (func : callable) (site : call_site) (start_time : Z)
    (e : exn) : M value :=
  let func_name := __name__ func in
  now <- time_time ;;
  let duration := (now - start_time)%Z in
  write_entry [log_file site; func_log_file func site] (error_entry func_name e duration) ;;
  raise e.

(** Lines 85-166: the [try] that runs the function. *)
Definition execute (func : callable) (site : call_site)
    (args : list value) (kwargs : list (string * value)) (start_time : Z) : M value :=
  try_except
    (let nested_calls := [] in
     sys_settrace (Some trace_calls) ;;
     p <- call func args kwargs nested_calls ;;
     let result := fst p in
     let nested_calls := snd p in
     sys_settrace None ;;
     now <- time_time ;;
     let duration := (now - start_time)%Z in
     result_repr <- try_except (lift (format_value result))
                      (fun e => ret ("<error formatting result: " ++ exn_msg e ++ ">")) ;;
     write_entry [log_file site; func_log_file func site]
                 (completion_entry nested_calls result_repr duration) ;;
     ret result)
    (on_exception func site start_time).

(** Lines 58-63: the guarded formatting of the arguments. *)
Definition format_arguments_safely (args : list value) (kwargs : list (string * value))
    : M (list string * list (string * string)) :=
  try_except (lift (format_arguments args kwargs))
    (fun e => ret (["<error formatting args>"], [("error", exn_msg e)])).

(** Lines 66-166: what follows once the arguments are formatted. *)
Definition log_and_execute (func : callable) (site : call_site)
    (args : list value) (kwargs : list (string * value)) (start_time : Z)
    (args_repr : list string) (kwargs_repr : list (string * string)) : M value :=
  write_entry [log_file site; func_log_file func site]
    (log_entry func site args kwargs args_repr kwargs_repr) ;;
  execute func site args kwargs start_time.

Definition wrapper (func : callable) (site : call_site)
    (args : list value) (kwargs : list (string * value)) : M value :=
  present <- os_path_exists log_dir ;;
  (if negb present then os_makedirs log_dir else ret tt) ;;
  start_time <- time_time ;;
  formatted <- format_arguments_safely args kwargs ;;
  log_and_execute func site args kwargs start_time (fst formatted) (snd formatted).

(** [log_call_path(func)] *)
Definition log_call_path (func : callable)
    : call_site -> list value -> list (string * value) -> M value :=
  wrapper func.

(** ** The handlers, with [str(e)] as the call it is

    [exn_msg e] is the text [str(e)] returns, when it returns.  The
    handlers evaluate [str(e)] unguarded (lines 63, 128 and 153), and
    that call raises when the exception was built on an object whose own
    conversion raises, as [ValueError(key)] is for a [key] with a raising
    [__repr__].  The definitions of this section take what [str] does on
    an exception as [str_]; with [plain_str], the [str] that returns the
    message, they are the definitions above. *)

Definition plain_str (e : exn) : result string := Ok (exn_msg e).

(** Lines 152-158, for the text [msg] that [str(e)] returned. *)
Definition error_entry_with (func_name msg traceback_text : string) (duration : Z)
    : list string :=
  [ newline ++ "[ERROR] Exception in " ++ func_name ++ ": " ++ msg;
    "[TRACEBACK] " ++ traceback_text;
    "[DURATION] " ++ format_4f duration ++ " seconds";
    "[END] Function execution failed";
    banner ++ newline ].

(** Lines 58-63. *)
Definition format_arguments_safely_with (str_ : exn -> result string)
    (args : list value) (kwargs : list (string * value))
    : M (list string * list (string * string)) :=
  try_except (lift (format_arguments args kwargs))
    (fun e =>
       msg <- lift (str_ e) ;;
       ret (["<error formatting args>"], [("error", msg)])).

(** Lines 149-166. *)
Definition on_exception_with (str_ : exn -> result string)
    (func : callable) (site : call_site) (start_time : Z) (e : exn) : M value :=
  let func_name := __name__ func in
  now <- time_time ;;
  let duration := (now - start_time)%Z in
  msg <- lift (str_ e) ;;
  write_entry [log_file site; func_log_file func site]
              (error_entry_with func_name msg (exn_traceback e) duration) ;;
  raise e.

(** Lines 85-166. *)
Definition execute_with (str_ : exn -> result string)
    (func : callable) (site : call_site)
    (args : list value) (kwargs : list (string * value)) (start_time : Z) : M value :=
  try_except
    (let nested_calls := [] in
     sys_settrace (Some trace_calls) ;;
     p <- call func args kwargs nested_calls ;;
     let result := fst p in
     let nested_calls := snd p in
     sys_settrace None ;;
     now <- time_time ;;
     let duration := (now - start_time)%Z in
     result_repr <- try_except (lift (format_value result))
                      (fun e =>
                         msg <- lift (str_ e) ;;
                         ret ("<error formatting result: " ++ msg ++ ">")) ;;
     write_entry [log_file site; func_log_file func site]
                 (completion_entry nested_calls result_repr duration) ;;
     ret result)
    (on_exception_with str_ func site start_time).

(** Lines 66-166. *)
Definition log_and_execute_with (str_ : exn -> result string)
    (func : callable) (site : call_site)
    (args : list value) (kwargs : list (string * value)) (start_time : Z)
    (args_repr : list string) (kwargs_repr : list (string * string)) : M value :=
  write_entry [log_file site; func_log_file func site]
    (log_entry func site args kwargs args_repr kwargs_repr) ;;
  execute_with str_ func site args kwargs start_time.

Definition wrapper_with (str_ : exn -> result string)
    (func : callable) (site : call_site)
    (args : list value) (kwargs : list (string * value)) : M value :=
  present <- os_path_exists log_dir ;;
  (if negb present then os_makedirs log_dir else ret tt) ;;
  start_time <- time_time ;;
  formatted <- format_arguments_safely_with str_ args kwargs ;;
  log_and_execute_with str_ func site args kwargs start_time (fst formatted) (snd formatted).

(** * Vocabulary of the specification *)

(** [needle in text] *)
Definition occurs (needle text : string) : bool :=
  match String.index 0 needle text with Some _ => true | None => false end.

(** The text a log entry adds to a file. *)
Definition unlines (entry : list string) : string :=
  concat_strings (map (fun line => line ++ newline) entry).

(** The fate of the [n]-th coming [open]. *)
Definition fault_at (n : nat) (w : world) : option exn := nth n (io_faults w) None.

Definition no_fault (f : option exn) : bool :=
  match f with None => true | Some _ => false end.

(** The next [n] calls of [open] succeed. *)
Definition opens_succeed (n : nat) (w : world) : bool :=
  forallb no_fault (firstn n (io_faults w)).

Definition pop_fault (w : world) : world := set_io_faults (tl (io_faults w)) w.

(** The world after one file was opened and received the entry. *)
Definition written (path : string) (entry : list string) (w : world) : world :=
  set_stdout (stdout w ++ unlines entry)
    (set_files (<[path := file_text path w ++ unlines entry]> (files w)) (pop_fault w)).

(** Is a trace function installed? *)
Definition armed (w : world) : bool :=
  match trace_hook w with Some _ => true | None => false end.

(** The world after lines 31-33. *)
Definition ensure_log_dir (w : world) : world :=
  if bool_decide (log_dir ∈ dirs w) then w else set_dirs ({[log_dir]} ∪ dirs w) w.

(** What lines 58-63 leave in [args_repr] and [kwargs_repr]. *)
Definition formatted_arguments (args : list value) (kwargs : list (string * value))
    : list string * list (string * string) :=
  match format_arguments args kwargs with
  | Ok p => p
  | Raise e => (["<error formatting args>"], [("error", exn_msg e)])
  end.

(** The entry an invocation logs. *)
Definition entry_of (func : callable) (site : call_site)
    (args : list value) (kwargs : list (string * value)) : list string :=
  log_entry func site args kwargs
    (fst (formatted_arguments args kwargs)) (snd (formatted_arguments args kwargs)).

(** What lines 125-128 leave in [result_repr]. *)
Definition result_text (r : value) : string :=
  match format_value r with
  | Ok s => s
  | Raise e => "<error formatting result: " ++ exn_msg e ++ ">"
  end.

(** What [trace_calls] has collected when the run of [b] ends. *)
Definition traced (b : behaviour) : list nested_call :=
  fold_left (fun acc ev => trace_calls (snd ev) (fst ev) acc) (events b) [].

(** The events that leave a record: the entries of functions whose name
    does not start with an underscore. *)
Definition recorded (ev : string * frame) : bool :=
  String.eqb (fst ev) "call" && negb (startswith "_" (co_name (snd ev))).

(** The record of one function entry: its parameters formatted with
    [format_value], or the placeholder when that raises. *)
Definition record_of (fr : frame) : nested_call :=
  NestedCall (co_name fr) (last_path_segment (co_filename fr))
    (match format_frame_args (arg_names fr) (f_locals fr) [] with
     | Ok args_dict => ArgsDict args_dict
     | Raise e => ArgsText ("<error getting args: " ++ exn_msg e ++ ">")
     end).

(** [repr] succeeds on [v]: no object inside it has a raising [__repr__]. *)
Fixpoint repr_ok (v : value) : bool :=
  match v with
  | VList items | VTuple items => forallb repr_ok items
  | VDict entries => forallb (fun kv => repr_ok (fst kv) && repr_ok (snd kv)) entries
  | VObject _ _ _ repr_ => is_ok repr_
  | _ => true
  end.

(** The conversions [format_value] delegates to succeed: the [repr] of
    every key of a mapping, the [str] of an object that reaches the
    fallback. *)
Definition conversions_succeed (v : value) : bool :=
  match v with
  | VDict entries => forallb repr_ok (map fst entries)
  | VObject (KInstance false) _ str_ _ => is_ok str_
  | _ => true
  end.

(** The world when the function has run: the entry is in both files,
    the trace function is installed and the clock has advanced. *)
Definition started (func : callable) (site : call_site)
    (args : list value) (kwargs : list (string * value)) (w : world) : world :=
  let entry := entry_of func site args kwargs in
  let w1 := written (func_log_file func site) entry
              (written (log_file site) entry (ensure_log_dir w)) in
  set_clock (clock w1 + elapsed (body func args kwargs))
    (set_trace_hook (Some trace_calls) w1).

(** The exception, if any, that ends the writing of an entry whose first
    [open] is the [i]-th coming one, and the number of calls of [open]
    that writing makes. *)
Definition write_fault (i : nat) (w : world) : option exn :=
  match fault_at i w with
  | Some e => Some e
  | None => fault_at (S i) w
  end.

Definition opens_used (i : nat) (w : world) : nat :=
  match fault_at i w with
  | Some _ => 1
  | None => 2
  end.

(** Structural induction on values, through the lists they nest. *)
Section ValueInduction.
Variable P : value -> Prop.
Hypothesis HNone : P VNone.
Hypothesis HBool : forall b, P (VBool b).
Hypothesis HInt : forall n, P (VInt n).
Hypothesis HStr : forall s, P (VStr s).
Hypothesis HList : forall items, Forall P items -> P (VList items).
Hypothesis HTuple : forall items, Forall P items -> P (VTuple items).
Hypothesis HDict :
  forall entries, Forall (fun kv => P (fst kv) /\ P (snd kv)) entries -> P (VDict entries).
Hypothesis HObject : forall kind cls str_ repr_, P (VObject kind cls str_ repr_).

Fixpoint value_induction (v : value) : P v :=
  match v with
  | VNone => HNone
  | VBool b => HBool b
  | VInt n => HInt n
  | VStr s => HStr s
  | VList items =>
      HList items
        ((fix all (l : list value) : Forall P l :=
            match l with
            | [] => List.Forall_nil P
            | x :: rest => List.Forall_cons P x rest (value_induction x) (all rest)
            end) items)
  | VTuple items =>
      HTuple items
        ((fix all (l : list value) : Forall P l :=
            match l with
            | [] => List.Forall_nil P
            | x :: rest => List.Forall_cons P x rest (value_induction x) (all rest)
            end) items)
  | VDict entries =>
      HDict entries
        ((fix all (l : list (value * value))
            : Forall (fun kv => P (fst kv) /\ P (snd kv)) l :=
            match l with
            | [] => List.Forall_nil _
            | (k, x) :: rest =>
                List.Forall_cons _ (k, x) rest
                  (conj (value_induction k) (value_induction x)) (all rest)
            end) entries)
  | VObject kind cls str_ repr_ => HObject kind cls str_ repr_
  end.
End ValueInduction.

(** ** Scenarios *)

Definition main_site : call_site :=
  CallSite (Some (Frame "run" "/app/facefusion/core.py" [] []))
    [ FrameInfo "/app/facefusion/utilities.py" "wrapper";
      FrameInfo "/app/facefusion/core.py" "run";
      FrameInfo "/app/run.py" "<module>" ]
    "20240315" "2024-03-15 09:30:00.000000".

(** A healthy machine: no file yet, every [open] succeeds, no trace
    function installed. *)
Definition fresh_world : world := World ∅ ∅ EmptyString [] None 17104950000000.

Definition with_faults (faults : list (option exn)) : world :=
  set_io_faults faults fresh_world.

Definition zero_division : exn :=
  Exn "ZeroDivisionError" "integer division or modulo by zero"
      "Traceback (most recent call last): ZeroDivisionError: integer division or modulo by zero".

Definition type_error : exn :=
  Exn "TypeError" "unsupported operand" "Traceback (most recent call last): TypeError".

Definition disk_full : exn :=
  Exn "OSError" "[Errno 28] No space left on device"
      "Traceback (most recent call last): OSError: [Errno 28] No space left on device".

Definition permission_denied : exn :=
  Exn "PermissionError" "[Errno 13] Permission denied"
      "Traceback (most recent call last): PermissionError: [Errno 13] Permission denied".

(** [def divide(a, b): return a // b] *)
Definition divide : callable :=
  Callable "divide" "/app/facefusion/maths.py" (fun args kwargs =>
    match args with
    | [VInt a; VInt b] =>
        Behaviour
          [("call", Frame "divide" "/app/facefusion/maths.py" ["a"; "b"]
                          [("a", VInt a); ("b", VInt b)])]
          2
          (if (b =? 0)%Z then Raise zero_division else Ok (VInt (a / b)))
    | _ => Behaviour [] 0 (Raise type_error)
    end).



Definition repr_failure : exn :=
  Exn "RuntimeError" "repr is broken" "Traceback (most recent call last): RuntimeError: repr is broken".

(** An instance of [class Key: def __repr__(self): raise RuntimeError(...)]. *)
Definition unprintable : value :=
  VObject (KInstance true) "Key" (Raise repr_failure) (Raise repr_failure).

(** From [w] to [w'] the files only grew, at most the two targets [p1]
    and [p2] changed, and the directories are the same. *)
Definition grows (p1 p2 : string) (w w' : world) : Prop :=
  (forall q, exists rest, file_text q w' = file_text q w ++ rest)
  /\ (forall q, q <> p1 -> q <> p2 -> file_text q w' = file_text q w)
  /\ dirs w' = dirs w.

(** A trace function installed by someone else, a debugger say. *)
Definition foreign_trace : tracefunc := fun fr event nested_calls => nested_calls.

(** A value without [__dict__] whose [__str__] raises. *)
Definition opaque_result : value :=
  VObject (KInstance false) "Handle" (Raise repr_failure) (Ok "<Handle>").

(** [def make_handle(): return _open('/dev/null')] *)
Definition make_handle : callable :=
  Callable "make_handle" "/app/facefusion/handles.py" (fun args kwargs =>
    Behaviour
      [("call", Frame "make_handle" "/app/facefusion/handles.py" [] []);
       ("call", Frame "_open" "/app/facefusion/handles.py" ["path"]
                      [("path", VStr "/dev/null")])]
      1 (Ok opaque_result)).

(** The value reaches the last line of [format_value]: none of the five
    tests holds. *)
Definition reaches_fallback (v : value) : bool :=
  negb (isinstance_ArgumentParser v) && negb (isinstance_ndarray v)
  && negb (isinstance_list_tuple v) && negb (isinstance_dict v)
  && negb (hasattr___dict__ v).

(** The values of which [format_value] converts no part: the built-in
    [None], booleans, strings, lists and tuples, the parsers, the arrays
    and the objects that have a [__dict__]. *)
Definition contents_not_converted (v : value) : bool :=
  match v with
  | VNone | VBool _ | VStr _ | VList _ | VTuple _ => true
  | VObject KArgumentParser _ _ _ => true
  | VObject (KNdarray _ _) _ _ _ => true
  | VObject (KInstance true) _ _ _ => true
  | _ => false
  end.




(** * Properties *)

(** ** The model at work *)

Example repr_str_plain : repr_str "a" = "'a'".
Proof. reflexivity. Qed.

Example repr_str_with_quote_and_tab :
  repr_str ("it's" ++ String "009"%char "x\y")
  = String dquote ("it's\tx\\y" ++ String dquote EmptyString).
Proof. reflexivity. Qed.

Example format_value_array :
  format_value (VObject (KNdarray [3; 4]%Z "float64") "ndarray" (Ok "[[0. 0.]]") (Ok "array()"))
  = Ok "ndarray(shape=(3, 4), dtype=float64)".
Proof. reflexivity. Qed.

Example format_value_tuple : format_value (VTuple [VInt 1; VNone]) = Ok "tuple(len=2)".
Proof. reflexivity. Qed.

Example format_value_int : format_value (VInt (-5)) = Ok "-5".
Proof. reflexivity. Qed.

Example format_4f_ticks : format_4f 12345 = "1.2345" /\ format_4f (-7) = "-0.0007".
Proof. split; reflexivity. Qed.

Example last_path_segment_of_path : last_path_segment "/app/facefusion/core.py" = "core.py".
Proof. reflexivity. Qed.

(** [divide(6, 3)] on a healthy machine: the value, the text of the
    global log file, and the trace hook afterwards. *)
Example divide_6_3_logged :
  let run := wrapper divide main_site [VInt 6; VInt 3] [] fresh_world in
  fst run = Ok (VInt 2)
  /\ file_text (log_file main_site) (snd run)
     = unlines
         [ newline ++ banner;
           "[TIMESTAMP] 2024-03-15 09:30:00.000000";
           "[CALL STACK] core.py::run -> run.py::<module>";
           "[FUNCTION] maths.py::divide";
           "[CALLER] core.py::run";
           "[ARGS] ['6', '3']";
           "[KWARGS] None";
           "[START] Function execution started";
           newline ++ "[NESTED CALLS]";
           "  " ++ json_dumps_call
                     (NestedCall "divide" "maths.py" (ArgsDict [("a", "6"); ("b", "3")]));
           newline ++ "[RESULT] 2";
           "[DURATION] 0.0002 seconds";
           "[END] Function execution completed successfully";
           banner ++ newline ]
  /\ log_file main_site = "logs/facefusion_20240315.log"
  /\ func_log_file divide main_site = "logs/facefusion_divide_20240315.log"
  /\ armed (snd run) = false.
Proof. repeat split; vm_compute; reflexivity. Qed.

(** ** Facts about text *)

Lemma append_nil_r (s : string) : s ++ EmptyString = s.
Proof. induction s as [|c s IH]; simpl; [reflexivity | now rewrite IH]. Qed.

Lemma append_assoc (s1 s2 s3 : string) : (s1 ++ s2) ++ s3 = s1 ++ s2 ++ s3.
Proof. induction s1 as [|c s1 IH]; simpl; [reflexivity | now rewrite IH]. Qed.

Lemma length_append (s1 s2 : string) :
  String.length (s1 ++ s2) = String.length s1 + String.length s2.
Proof. induction s1 as [|c s1 IH]; simpl; [reflexivity | now rewrite IH]. Qed.

Lemma unlines_app (l1 l2 : list string) :
  unlines (app l1 l2) = unlines l1 ++ unlines l2.
Proof.
  unfold unlines. induction l1 as [|x l1 IH]; simpl; [reflexivity|].
  now rewrite IH, !append_assoc.
Qed.

(** The two log files of an invocation are different files. *)
Lemma log_files_differ (func : callable) (site : call_site) :
  log_file site <> func_log_file func site.
Proof.
  intros H. apply (f_equal String.length) in H.
  unfold log_file, func_log_file, os_path_join, log_dir in H.
  repeat (rewrite length_append in H; simpl in H). lia.
Qed.

(** ** The log-writing loop, symbolically *)

Lemma write_lines_spec (path : string) (entry : list string) :
  forall (w : world) (t : string),
    files w !! path = Some t ->
    for_each entry (fun line => print line ;; file_write path (line ++ newline)) w
    = (Ok tt, set_stdout (stdout w ++ unlines entry)
                (set_files (<[path := t ++ unlines entry]> (files w)) w)).
Proof.
  induction entry as [|line rest IH]; intros w t Ht.
  - destruct w as [f d o io h c]; simpl in *. unfold unlines; simpl.
    rewrite !append_nil_r. unfold set_stdout, set_files; simpl.
    now rewrite (insert_id f path t Ht).
  - cbn [for_each]. unfold bind at 1. unfold bind at 1.
    unfold print at 1. unfold file_write at 1.
    rewrite (IH _ (t ++ line ++ newline)).
    + destruct w as [f d o io h c]; unfold set_stdout, set_files, file_text; simpl in *.
      rewrite Ht. simpl. rewrite insert_insert_eq.
      unfold unlines; simpl. now rewrite !append_assoc.
    + destruct w as [f d o io h c]; unfold set_stdout, set_files, file_text; simpl in *.
      rewrite Ht. simpl. apply lookup_insert_eq.
Qed.

Lemma open_and_write (path : string) (entry : list string) (w : world) :
  (open_append path ;;
   for_each entry (fun line => print line ;; file_write path (line ++ newline))) w
  = match fault_at 0 w with
    | Some e => (Raise e, pop_fault w)
    | None => (Ok tt, written path entry w)
    end.
Proof.
  destruct w as [f d o io h c].
  destruct io as [|[e|] rest]; unfold bind at 1; unfold open_append, fault_at; simpl;
    try reflexivity;
    (erewrite write_lines_spec by (simpl; apply lookup_insert_eq);
     unfold written, pop_fault, set_stdout, set_files, set_io_faults, file_text; simpl;
     now rewrite insert_insert_eq).
Qed.

Lemma fault_at_pop (n : nat) (w : world) : fault_at n (pop_fault w) = fault_at (S n) w.
Proof.
  destruct w as [f d o io h c]. unfold fault_at; simpl.
  destruct io; [now destruct n | reflexivity].
Qed.

Lemma fault_at_written (n : nat) (p : string) (entry : list string) (w : world) :
  fault_at n (written p entry w) = fault_at (S n) w.
Proof. exact (fault_at_pop n w). Qed.

Lemma fault_at_set_clock (n : nat) (t : Z) (w : world) :
  fault_at n (set_clock t w) = fault_at n w.
Proof. reflexivity. Qed.

Lemma fault_at_set_trace_hook (n : nat) (h : option tracefunc) (w : world) :
  fault_at n (set_trace_hook h w) = fault_at n w.
Proof. reflexivity. Qed.

Lemma fault_at_ensure_log_dir (n : nat) (w : world) :
  fault_at n (ensure_log_dir w) = fault_at n w.
Proof. unfold ensure_log_dir. now destruct (bool_decide _). Qed.

Lemma opens_succeed_fault_at (n : nat) (w : world) :
  opens_succeed n w = true -> forall i, i < n -> fault_at i w = None.
Proof.
  unfold opens_succeed, fault_at. generalize (io_faults w) as l.
  induction n as [|n IH]; intros l H i Hi; [lia|].
  destruct l as [|f l]; [now destruct i|].
  simpl in H. apply andb_prop in H as [Hf Hl].
  destruct i as [|i]; simpl.
  - now destruct f.
  - apply IH; [assumption | lia].
Qed.

(** Writing an entry to two targets: the first fault met ends the loop. *)
Lemma write_entry_two (p1 p2 : string) (entry : list string) (w : world) :
  write_entry [p1; p2] entry w
  = match fault_at 0 w with
    | Some e => (Raise e, pop_fault w)
    | None =>
        match fault_at 1 w with
        | Some e => (Raise e, pop_fault (written p1 entry w))
        | None => (Ok tt, written p2 entry (written p1 entry w))
        end
    end.
Proof.
  unfold write_entry. cbn [for_each].
  unfold bind at 1. rewrite open_and_write.
  destruct (fault_at 0 w) as [e|] eqn:F0; [reflexivity|].
  unfold bind at 1. rewrite open_and_write, fault_at_written.
  destruct (fault_at 1 w); reflexivity.
Qed.

#[local] Arguments write_entry : simpl never.

Lemma file_text_written_same (p : string) (entry : list string) (w : world) :
  file_text p (written p entry w) = file_text p w ++ unlines entry.
Proof. unfold file_text, written; simpl. now rewrite lookup_insert_eq. Qed.

Lemma file_text_written_other (p q : string) (entry : list string) (w : world) :
  p <> q -> file_text q (written p entry w) = file_text q w.
Proof. intros H. unfold file_text, written; simpl. now rewrite lookup_insert_ne. Qed.

Lemma file_text_ensure_log_dir (q : string) (w : world) :
  file_text q (ensure_log_dir w) = file_text q w.
Proof. unfold ensure_log_dir. now destruct (bool_decide _). Qed.

Lemma trace_hook_ensure_log_dir (w : world) :
  trace_hook (ensure_log_dir w) = trace_hook w.
Proof. unfold ensure_log_dir. now destruct (bool_decide _). Qed.

Lemma clock_ensure_log_dir (w : world) : clock (ensure_log_dir w) = clock w.
Proof. unfold ensure_log_dir. now destruct (bool_decide _). Qed.

(** ** The wrapper, symbolically *)

Lemma on_exception_run (func : callable) (site : call_site) (t0 : Z) (e : exn) (w : world) :
  on_exception func site t0 e w
  = match write_entry [log_file site; func_log_file func site]
            (error_entry (__name__ func) e (clock w - t0)) w with
    | (Ok _, w') => (Raise e, w')
    | (Raise e', w') => (Raise e', w')
    end.
Proof.
  unfold on_exception, bind, time_time, raise.
  now destruct (write_entry _ _ w) as [[[]|e'] w'].
Qed.

Lemma execute_run (func : callable) (site : call_site)
    (args : list value) (kwargs : list (string * value)) (t0 : Z) (w : world) :
  execute func site args kwargs t0 w
  = let b := body func args kwargs in
    let w2 := set_clock (clock w + elapsed b) (set_trace_hook (Some trace_calls) w) in
    match outcome b with
    | Raise e => on_exception func site t0 e w2
    | Ok r =>
        let w3 := set_trace_hook None w2 in
        match write_entry [log_file site; func_log_file func site]
                (completion_entry (traced b) (result_text r) (clock w3 - t0)) w3 with
        | (Ok _, w4) => (Ok r, w4)
        | (Raise e, w4) => on_exception func site t0 e w4
        end
    end.
Proof.
  unfold execute, try_except at 1, bind at 1, sys_settrace at 1.
  unfold bind at 1, call. cbn [trace_hook set_trace_hook].
  destruct (outcome (body func args kwargs)) as [r|e]; [|reflexivity].
  cbn [fst snd]. unfold bind at 1, sys_settrace. unfold bind at 1, time_time.
  unfold bind at 1, try_except, lift, ret, result_text, traced.
  cbn zeta.
  destruct (format_value r) as [s|e]; unfold bind;
    cbn [clock set_clock set_trace_hook files dirs stdout io_faults trace_hook];
    match goal with |- context [write_entry ?ps ?en ?ww] =>
      destruct (write_entry ps en ww) as [[[]|e'] w'] end; reflexivity.
Qed.

Lemma log_and_execute_run (func : callable) (site : call_site)
    (args : list value) (kwargs : list (string * value)) (t0 : Z)
    (args_repr : list string) (kwargs_repr : list (string * string)) (w : world) :
  log_and_execute func site args kwargs t0 args_repr kwargs_repr w
  = let entry := log_entry func site args kwargs args_repr kwargs_repr in
    match fault_at 0 w with
    | Some e => (Raise e, pop_fault w)
    | None =>
        match fault_at 1 w with
        | Some e => (Raise e, pop_fault (written (log_file site) entry w))
        | None =>
            execute func site args kwargs t0
              (written (func_log_file func site) entry (written (log_file site) entry w))
        end
    end.
Proof.
  unfold log_and_execute, bind. rewrite write_entry_two.
  destruct (fault_at 0 w); [reflexivity|]. now destruct (fault_at 1 w).
Qed.

Lemma format_arguments_safely_run (args : list value) (kwargs : list (string * value))
    (w : world) :
  format_arguments_safely args kwargs w = (Ok (formatted_arguments args kwargs), w).
Proof.
  unfold format_arguments_safely, try_except, lift, formatted_arguments, ret.
  now destruct (format_arguments args kwargs).
Qed.

Lemma wrapper_run (func : callable) (site : call_site)
    (args : list value) (kwargs : list (string * value)) (w : world) :
  wrapper func site args kwargs w
  = log_and_execute func site args kwargs (clock w)
      (fst (formatted_arguments args kwargs)) (snd (formatted_arguments args kwargs))
      (ensure_log_dir w).
Proof.
  unfold wrapper, bind at 1, os_path_exists, ensure_log_dir.
  destruct (bool_decide (log_dir ∈ dirs w)); cbn [negb];
    unfold bind at 1; cbn [ret os_makedirs];
    unfold bind at 1, time_time; unfold bind at 1;
    rewrite format_arguments_safely_run; reflexivity.
Qed.

Lemma fault_at_started (n : nat) (func : callable) (site : call_site)
    (args : list value) (kwargs : list (string * value)) (w : world) :
  fault_at n (started func site args kwargs w) = fault_at (S (S n)) w.
Proof.
  unfold started. cbn zeta.
  rewrite fault_at_set_clock, fault_at_set_trace_hook, !fault_at_written.
  apply fault_at_ensure_log_dir.
Qed.

Lemma clock_started (func : callable) (site : call_site)
    (args : list value) (kwargs : list (string * value)) (w : world) :
  (clock (started func site args kwargs w) - clock w = elapsed (body func args kwargs))%Z.
Proof.
  unfold started. cbn. rewrite clock_ensure_log_dir. lia.
Qed.

Lemma file_text_started (func : callable) (site : call_site)
    (args : list value) (kwargs : list (string * value)) (w : world) (p : string) :
  p = log_file site \/ p = func_log_file func site ->
  file_text p (started func site args kwargs w)
  = file_text p w ++ unlines (entry_of func site args kwargs).
Proof.
  pose proof (log_files_differ func site) as D.
  unfold started. cbn zeta.
  change (file_text p (set_clock ?t (set_trace_hook ?h ?x))) with (file_text p x).
  intros [-> | ->].
  - rewrite file_text_written_other by congruence.
    now rewrite file_text_written_same, file_text_ensure_log_dir.
  - rewrite file_text_written_same, file_text_written_other by congruence.
    now rewrite file_text_ensure_log_dir.
Qed.

(** The handler never returns a value and leaves the trace hook alone. *)
Lemma on_exception_raises (func : callable) (site : call_site) (t0 : Z) (e : exn) (w : world) :
  exists e', fst (on_exception func site t0 e w) = Raise e'
             /\ (e' = e \/ In (Some e') (io_faults w)).
Proof.
  rewrite on_exception_run, write_entry_two. unfold fault_at.
  destruct (io_faults w) as [|[e0|] [|[e1|] rest]]; simpl; eauto 6.
Qed.

Lemma on_exception_hook (func : callable) (site : call_site) (t0 : Z) (e : exn) (w : world) :
  trace_hook (snd (on_exception func site t0 e w)) = trace_hook w.
Proof.
  rewrite on_exception_run, write_entry_two.
  destruct (fault_at 0 w); [reflexivity|]. now destruct (fault_at 1 w).
Qed.

Lemma on_exception_logged (func : callable) (site : call_site) (t0 : Z) (e : exn) (w : world) :
  fault_at 0 w = None -> fault_at 1 w = None ->
  on_exception func site t0 e w
  = (Raise e,
     written (func_log_file func site) (error_entry (__name__ func) e (clock w - t0))
       (written (log_file site) (error_entry (__name__ func) e (clock w - t0)) w)).
Proof.
  intros F0 F1. now rewrite on_exception_run, write_entry_two, F0, F1.
Qed.


Lemma wrapper_on_raise (func : callable) (site : call_site)
    (args : list value) (kwargs : list (string * value)) (w : world) (e : exn) :
  fault_at 0 w = None -> fault_at 1 w = None ->
  outcome (body func args kwargs) = Raise e ->
  wrapper func site args kwargs w
  = on_exception func site (clock w) e (started func site args kwargs w).
Proof.
  intros F0 F1 Hb.
  rewrite wrapper_run, log_and_execute_run, !fault_at_ensure_log_dir, F0, F1.
  cbn zeta. rewrite execute_run. cbn zeta. rewrite Hb. reflexivity.
Qed.

Lemma wrapper_on_return (func : callable) (site : call_site)
    (args : list value) (kwargs : list (string * value)) (w : world) (r : value) :
  fault_at 0 w = None -> fault_at 1 w = None ->
  outcome (body func args kwargs) = Ok r ->
  wrapper func site args kwargs w
  = match write_entry [log_file site; func_log_file func site]
            (completion_entry (traced (body func args kwargs)) (result_text r)
                              (elapsed (body func args kwargs)))
            (set_trace_hook None (started func site args kwargs w)) with
    | (Ok _, w4) => (Ok r, w4)
    | (Raise e, w4) => on_exception func site (clock w) e w4
    end.
Proof.
  intros F0 F1 Hb.
  rewrite wrapper_run, log_and_execute_run, !fault_at_ensure_log_dir, F0, F1.
  cbn zeta. rewrite execute_run. cbn zeta. rewrite Hb.
  change (clock (set_trace_hook None ?x)) with (clock x).
  fold (entry_of func site args kwargs).
  fold (started func site args kwargs w).
  now rewrite clock_started.
Qed.

(** ** The trace hook after an invocation *)

Lemma hook_after_return (func : callable) (site : call_site)
    (args : list value) (kwargs : list (string * value)) (w : world) (r : value) :
  fault_at 0 w = None -> fault_at 1 w = None ->
  outcome (body func args kwargs) = Ok r ->
  trace_hook (snd (wrapper func site args kwargs w)) = None.
Proof.
  intros F0 F1 Hb. rewrite (wrapper_on_return _ _ _ _ _ r F0 F1 Hb), write_entry_two.
  destruct (fault_at 0 (set_trace_hook None _)); cbv beta iota;
    [now rewrite on_exception_hook|].
  destruct (fault_at 1 (set_trace_hook None _)); cbv beta iota;
    [now rewrite on_exception_hook | reflexivity].
Qed.

Lemma hook_after_raise (func : callable) (site : call_site)
    (args : list value) (kwargs : list (string * value)) (w : world) (e : exn) :
  fault_at 0 w = None -> fault_at 1 w = None ->
  outcome (body func args kwargs) = Raise e ->
  trace_hook (snd (wrapper func site args kwargs w)) = Some trace_calls.
Proof.
  intros F0 F1 Hb. rewrite (wrapper_on_raise _ _ _ _ _ e F0 F1 Hb).
  now rewrite on_exception_hook.
Qed.

(** C1, at the failing input.  On a healthy machine with no trace function
    installed, [divide(1, 0)] called through the wrapper re-raises the
    [ZeroDivisionError] and the wrapper exits with [trace_calls] still
    installed: line 119 is skipped and the handler does not call
    [sys.settrace(None)]. *)
Theorem raising_target_leaves_trace_hook_installed :
  armed fresh_world = false
  /\ fst (wrapper divide main_site [VInt 1; VInt 0] [] fresh_world) = Raise zero_division
  /\ armed (snd (wrapper divide main_site [VInt 1; VInt 0] [] fresh_world)) = true.
Proof.
  split; [reflexivity|]. split.
  - rewrite (wrapper_on_raise divide main_site _ _ _ zero_division) by reflexivity.
    now rewrite on_exception_logged.
  - unfold armed.
    now rewrite (hook_after_raise divide main_site _ _ _ zero_division).
Qed.

(** ** format_value *)

Lemma is_ok_result_map {A B} (f : A -> B) (r : result A) :
  is_ok (result_map f r) = is_ok r.
Proof. now destruct r. Qed.

Lemma is_ok_sequence {A} (l : list (result A)) : is_ok (sequence l) = forallb is_ok l.
Proof.
  induction l as [|r l IH]; [reflexivity|].
  destruct r as [a|e]; simpl; [|reflexivity].
  now rewrite is_ok_result_map.
Qed.

Lemma is_ok_true {A} (r : result A) : is_ok r = true <-> exists a, r = Ok a.
Proof.
  destruct r as [a|e]; simpl; split; eauto; try discriminate.
  now intros [a H].
Qed.

Lemma py_repr_ok (v : value) : is_ok (py_repr v) = repr_ok v.
Proof.
  induction v as [| | | |items IH|items IH|entries IH|] using value_induction;
    try reflexivity.
  - simpl. rewrite is_ok_result_map, is_ok_sequence.
    induction IH as [|x l Hx _ IHl]; simpl; [reflexivity | now rewrite Hx, IHl].
  - simpl. rewrite is_ok_result_map, is_ok_sequence.
    induction IH as [|x l Hx _ IHl]; simpl; [reflexivity | now rewrite Hx, IHl].
  - simpl. rewrite is_ok_result_map, is_ok_sequence.
    induction IH as [|[k x] l [Hk Hx] _ IHl]; simpl in *; [reflexivity|].
    rewrite <- Hk, <- Hx, IHl. f_equal.
    destruct (py_repr k); simpl; [apply is_ok_result_map | reflexivity].
Qed.

Lemma is_ok_format_value (v : value) : is_ok (format_value v) = conversions_succeed v.
Proof.
  destruct v as [| | | | | |entries|kind cls str_ repr_]; try reflexivity.
  - unfold format_value. cbn -[py_repr]. rewrite is_ok_result_map.
    exact (py_repr_ok (VList (map fst entries))).
  - destruct kind as [| |[|]]; reflexivity.
Qed.

(** C2, counterexample.  A dictionary one of whose keys has a raising
    [__repr__] makes [format_value] raise: no string is returned. *)
Lemma format_value_raises_on_unprintable_key :
  format_value (VDict [(unprintable, VInt 1)]) = Raise repr_failure.
Proof. reflexivity. Qed.

(** C2, amended.  [format_value] is not total: it has no exception
    handling of its own.  When the [repr] of a key of a mapping raises,
    or the [str] of a value that reaches the fallback raises,
    [format_value] raises that same exception; whenever it returns a
    string those conversions have returned.  It always returns a string
    for the values of which it converts no part: the built-in [None],
    booleans, strings, lists and tuples, the parsers, the arrays and the
    objects that have a [__dict__]. *)
Theorem format_value_raises_with_its_conversions :
  forall v : value,
    (forall e, isinstance_dict v = true ->
               py_str (VList (dict_keys v)) = Raise e -> format_value v = Raise e)
    /\ (forall e, reaches_fallback v = true ->
                  py_str v = Raise e -> format_value v = Raise e)
    /\ (forall s, format_value v = Ok s -> conversions_succeed v = true)
    /\ (contents_not_converted v = true -> exists s, format_value v = Ok s).
Proof.
  intros v. split; [|split; [|split]].
  - intros e Hd H. destruct v; try discriminate.
    unfold format_value. cbn -[py_str] in *. now rewrite H.
  - intros e Hf H.
    destruct v as [| | | | | | |kind cls str_ repr_]; try discriminate.
    destruct kind as [| |[|]]; try discriminate. exact H.
  - intros s H. rewrite <- is_ok_format_value, H. reflexivity.
  - intros H. destruct v as [| | | | | | |kind cls str_ repr_]; try discriminate;
      try (eexists; reflexivity).
    destruct kind as [| |[|]]; try discriminate; eexists; reflexivity.
Qed.

Lemma format_value_raises_with_its_conversions_witness :
  reaches_fallback opaque_result = true
  /\ py_str opaque_result = Raise repr_failure
  /\ format_value opaque_result = Raise repr_failure.
Proof.
  split; [reflexivity|]. split; [reflexivity|].
  exact (proj1 (proj2 (format_value_raises_with_its_conversions opaque_result))
           repr_failure eq_refl eq_refl).
Defined.

(** C8, counterexample.  A key-unique mapping whose second key cannot be
    rendered: [format_value] raises instead of returning the string. *)
Lemma mapping_with_unprintable_key_is_not_formatted :
  format_value (VDict [(VStr "a", VInt 1); (unprintable, VInt 2)]) = Raise repr_failure.
Proof. reflexivity. Qed.

(** C8, amended.  [format_value] tries the shapes in order and the first
    test that holds decides (a parser is formatted as a parser although
    it also has a [__dict__]); for every mapping whose keys [repr] can
    render it returns [dict(keys=[k1, k2, ...])] with the keys in order,
    and when the [repr] of a key raises, so does [format_value]; the
    mapping with keys ['a'] and ['b'] gives [dict(keys=['a', 'b'])]. *)
Theorem mapping_formats_as_key_list :
  (forall v : value,
      (isinstance_ArgumentParser v = true -> format_value v = Ok "ArgumentParser()")
      /\ (isinstance_ArgumentParser v = false -> isinstance_ndarray v = true ->
          format_value v
          = Ok ("ndarray(shape=" ++ tuple_text (map show_Z (shape_of v))
                  ++ ", dtype=" ++ dtype_of v ++ ")"))
      /\ (isinstance_ArgumentParser v = false -> isinstance_ndarray v = false ->
          isinstance_list_tuple v = true ->
          format_value v = Ok (type_name v ++ "(len=" ++ show_Z (len v) ++ ")"))
      /\ (isinstance_ArgumentParser v = false -> isinstance_ndarray v = false ->
          isinstance_list_tuple v = false -> isinstance_dict v = true ->
          format_value v
          = result_map (fun keys => "dict(keys=" ++ keys ++ ")")
                       (py_str (VList (dict_keys v))))
      /\ (isinstance_ArgumentParser v = false -> isinstance_ndarray v = false ->
          isinstance_list_tuple v = false -> isinstance_dict v = false ->
          hasattr___dict__ v = true ->
          format_value v = Ok (type_name v ++ "()"))
      /\ (isinstance_ArgumentParser v = false -> isinstance_ndarray v = false ->
          isinstance_list_tuple v = false -> isinstance_dict v = false ->
          hasattr___dict__ v = false ->
          format_value v = py_str v))
  /\ (forall cls str_ repr_,
        hasattr___dict__ (VObject KArgumentParser cls str_ repr_) = true
        /\ format_value (VObject KArgumentParser cls str_ repr_) = Ok "ArgumentParser()")
  /\ (forall entries keys,
        sequence (map py_repr (map fst entries)) = Ok keys ->
        format_value (VDict entries) = Ok ("dict(keys=[" ++ join ", " keys ++ "])"))
  /\ (forall entries e,
        sequence (map py_repr (map fst entries)) = Raise e ->
        format_value (VDict entries) = Raise e)
  /\ format_value (VDict [(VStr "a", VInt 1); (VStr "b", VInt 2)])
     = Ok "dict(keys=['a', 'b'])".
Proof.
  split; [|split; [|split; [|split]]].
  - intros v. unfold format_value.
    repeat split; intros; repeat match goal with H : _ = _ |- _ => rewrite H; clear H end;
      reflexivity.
  - intros. split; reflexivity.
  - intros entries keys H. unfold format_value. cbn -[py_repr sequence].
    unfold py_str. cbn [py_repr]. rewrite H. cbn. now rewrite append_assoc.
  - intros entries e H. unfold format_value. cbn -[py_repr sequence].
    unfold py_str. cbn [py_repr]. now rewrite H.
  - reflexivity.
Qed.

Lemma mapping_formats_as_key_list_witness :
  sequence (map py_repr (map fst [(VStr "k", VNone); (VInt 2, VNone)])) = Ok ["'k'"; "2"]
  /\ format_value (VDict [(VStr "k", VNone); (VInt 2, VNone)]) = Ok "dict(keys=['k', 2])".
Proof.
  split; [reflexivity|].
  exact (proj1 (proj2 (proj2 mapping_formats_as_key_list))
           [(VStr "k", VNone); (VInt 2, VNone)] ["'k'"; "2"] eq_refl).
Defined.

(** ** The outcome of an invocation *)





(** What both log files hold after an invocation that met no fault. *)
Lemma log_text_without_faults (func : callable) (site : call_site)
    (args : list value) (kwargs : list (string * value)) (w : world) (p : string) :
  opens_succeed 4 w = true ->
  p = log_file site \/ p = func_log_file func site ->
  file_text p (snd (wrapper func site args kwargs w))
  = file_text p w ++ unlines (entry_of func site args kwargs)
      ++ match outcome (body func args kwargs) with
         | Ok r =>
             unlines (completion_entry (traced (body func args kwargs)) (result_text r)
                                       (elapsed (body func args kwargs)))
         | Raise e =>
             unlines (error_entry (__name__ func) e (elapsed (body func args kwargs)))
         end.
Proof.
  intros H Hp. pose proof (opens_succeed_fault_at 4 w H) as F.
  pose proof (log_files_differ func site) as D.
  destruct (outcome (body func args kwargs)) as [r|e] eqn:Hb.
  - rewrite (wrapper_on_return _ _ _ _ _ r) by (auto with lia).
    rewrite write_entry_two, !fault_at_set_trace_hook, !fault_at_started.
    rewrite !F by lia. cbv beta iota. cbn [snd].
    rewrite <- append_assoc, <- (file_text_started func site args kwargs w p Hp).
    destruct Hp as [-> | ->].
    + rewrite file_text_written_other by congruence.
      now rewrite file_text_written_same.
    + rewrite file_text_written_same.
      now rewrite file_text_written_other by congruence.
  - rewrite (wrapper_on_raise _ _ _ _ _ e) by (auto with lia).
    rewrite on_exception_logged by (rewrite fault_at_started; apply F; lia).
    cbn [snd]. rewrite clock_started.
    rewrite <- append_assoc, <- (file_text_started func site args kwargs w p Hp).
    destruct Hp as [-> | ->].
    + rewrite file_text_written_other by congruence.
      now rewrite file_text_written_same.
    + rewrite file_text_written_same.
      now rewrite file_text_written_other by congruence.
Qed.

(** ** Exceptions of the function *)




(** ** The log-writing step *)

(** C4, counterexample.  The first [open] of the entry meets a permission
    error: the wrapper raises it and the per-callable file, the second
    target, is never written. *)
Lemma first_target_failure_skips_second_target :
  fst (wrapper divide main_site [VInt 6; VInt 3] []
         (with_faults [Some permission_denied])) = Raise permission_denied
  /\ file_text (func_log_file divide main_site)
       (snd (wrapper divide main_site [VInt 6; VInt 3] []
               (with_faults [Some permission_denied]))) = EmptyString.
Proof. split; vm_compute; reflexivity. Qed.

(** C4, amended.  The two targets are written in turn by one loop without
    error handling.  A failure on the first target raises before the
    second is opened, and neither file is written; a failure on the second
    target raises after the first was written in full; without a failure
    both receive the entry. *)
Theorem write_entry_stops_at_first_failure (p1 p2 : string) (entry : list string)
    (w : world) :
  p1 <> p2 ->
  match fault_at 0 w, fault_at 1 w with
  | Some e, _ =>
      fst (write_entry [p1; p2] entry w) = Raise e
      /\ file_text p1 (snd (write_entry [p1; p2] entry w)) = file_text p1 w
      /\ file_text p2 (snd (write_entry [p1; p2] entry w)) = file_text p2 w
  | None, Some e =>
      fst (write_entry [p1; p2] entry w) = Raise e
      /\ file_text p1 (snd (write_entry [p1; p2] entry w)) = file_text p1 w ++ unlines entry
      /\ file_text p2 (snd (write_entry [p1; p2] entry w)) = file_text p2 w
  | None, None =>
      fst (write_entry [p1; p2] entry w) = Ok tt
      /\ file_text p1 (snd (write_entry [p1; p2] entry w)) = file_text p1 w ++ unlines entry
      /\ file_text p2 (snd (write_entry [p1; p2] entry w)) = file_text p2 w ++ unlines entry
  end.
Proof.
  intros D. rewrite write_entry_two.
  destruct (fault_at 0 w) as [e0|]; [repeat split|].
  destruct (fault_at 1 w) as [e1|]; cbn [fst snd].
  - split; [reflexivity|]. split.
    + exact (file_text_written_same p1 entry w).
    + exact (file_text_written_other p1 p2 entry w D).
  - split; [reflexivity|]. split.
    + rewrite file_text_written_other by congruence. apply file_text_written_same.
    + rewrite file_text_written_same. now rewrite file_text_written_other.
Qed.

Lemma write_entry_stops_at_first_failure_witness :
  log_file main_site <> func_log_file divide main_site
  /\ fst (write_entry [log_file main_site; func_log_file divide main_site] ["line"]
            (with_faults [None; Some disk_full])) = Raise disk_full
  /\ file_text (log_file main_site)
       (snd (write_entry [log_file main_site; func_log_file divide main_site] ["line"]
               (with_faults [None; Some disk_full]))) = "line" ++ newline
  /\ file_text (func_log_file divide main_site)
       (snd (write_entry [log_file main_site; func_log_file divide main_site] ["line"]
               (with_faults [None; Some disk_full]))) = EmptyString.
Proof.
  split; [apply log_files_differ|].
  exact (write_entry_stops_at_first_failure
           (log_file main_site) (func_log_file divide main_site) ["line"]
           (with_faults [None; Some disk_full]) (log_files_differ divide main_site)).
Defined.

(** ** Nested calls *)

Lemma trace_calls_step (fr : frame) (event : string) (acc : list nested_call) :
  trace_calls fr event acc
  = if recorded (event, fr) then app acc [record_of fr] else acc.
Proof.
  unfold trace_calls, recorded, record_of. cbn [fst snd].
  destruct (String.eqb event "call"); [|reflexivity].
  destruct (startswith "_" (co_name fr)); [reflexivity|]. cbn [negb andb].
  now destruct (format_frame_args (arg_names fr) (f_locals fr) []).
Qed.

Lemma fold_trace_calls (evs : list (string * frame)) (acc : list nested_call) :
  fold_left (fun acc ev => trace_calls (snd ev) (fst ev) acc) evs acc
  = app acc (map (fun ev => record_of (snd ev)) (List.filter recorded evs)).
Proof.
  revert acc. induction evs as [|[event fr] evs IH]; intros acc; cbn [fold_left].
  - cbn. now rewrite app_nil_r.
  - rewrite IH, trace_calls_step. cbn [List.filter fst snd].
    destruct (recorded (event, fr)); [|reflexivity].
    cbn [map snd]. now rewrite <- app_assoc.
Qed.

(** The records are those of the recorded events, in the order of the
    events. *)
Lemma traced_in_call_order (b : behaviour) :
  traced b = map (fun ev => record_of (snd ev)) (List.filter recorded (events b)).
Proof. unfold traced. now rewrite fold_trace_calls. Qed.

Lemma dict_get_set_other {V} (k k' : string) (x : V) (d : list (string * V)) :
  k <> k' -> dict_get k' (dict_set k x d) = dict_get k' d.
Proof.
  intros D. induction d as [|[k0 x0] d IH]; cbn.
  - destruct (String.eqb_spec k' k); [congruence | reflexivity].
  - destruct (String.eqb_spec k k0) as [->|]; cbn.
    + destruct (String.eqb_spec k' k0); [congruence | reflexivity].
    + destruct (String.eqb_spec k' k0); [reflexivity | exact IH].
Qed.

Lemma dict_set_fresh {V} (k : string) (x : V) (d : list (string * V)) :
  dict_get k d = None -> dict_set k x d = app d [(k, x)].
Proof.
  induction d as [|[k0 x0] d IH]; cbn; [reflexivity|].
  destruct (String.eqb_spec k k0); [discriminate|].
  intros H. now rewrite IH.
Qed.





(** ** Formatting of the arguments *)

Lemma wrapper_with_plain_str (func : callable) (site : call_site)
    (args : list value) (kwargs : list (string * value)) (w : world) :
  wrapper_with plain_str func site args kwargs w = wrapper func site args kwargs w.
Proof. reflexivity. Qed.








(** ** The value returned *)




(** ** A failing write of the completion entry *)

(** C9, counterexample.  The completion entry meets a full disk and the
    handler's own write a permission error: no failure entry reaches
    either file and the exception raised is the handler's, not the I/O
    error it was handling. *)
Lemma handler_write_failure_replaces_io_error :
  outcome (body divide [VInt 6; VInt 3] []) = Ok (VInt 2)
  /\ write_fault 2 (with_faults [None; None; Some disk_full; Some permission_denied])
     = Some disk_full
  /\ fst (wrapper divide main_site [VInt 6; VInt 3] []
            (with_faults [None; None; Some disk_full; Some permission_denied]))
     = Raise permission_denied
  /\ occurs "[END] Function execution failed"
       (file_text (log_file main_site)
          (snd (wrapper divide main_site [VInt 6; VInt 3] []
                  (with_faults [None; None; Some disk_full; Some permission_denied]))))
     = false
  /\ occurs "[END] Function execution failed"
       (file_text (func_log_file divide main_site)
          (snd (wrapper divide main_site [VInt 6; VInt 3] []
                  (with_faults [None; None; Some disk_full; Some permission_denied]))))
     = false.
Proof.
  split; [reflexivity|]. split; [reflexivity|].
  repeat split; vm_compute; reflexivity.
Qed.

Lemma clock_pop_fault (w : world) : clock (pop_fault w) = clock w.
Proof. reflexivity. Qed.

Lemma clock_written (p : string) (entry : list string) (w : world) :
  clock (written p entry w) = clock w.
Proof. reflexivity. Qed.

Lemma clock_set_trace_hook (h : option tracefunc) (w : world) :
  clock (set_trace_hook h w) = clock w.
Proof. reflexivity. Qed.

Lemma write_fault_shift (n : nat) (w w' : world) :
  (forall k, fault_at k w' = fault_at (k + n) w) ->
  write_fault 0 w' = write_fault n w.
Proof. intros H. unfold write_fault. now rewrite !H. Qed.

Lemma on_exception_by_write_fault (func : callable) (site : call_site) (t0 : Z)
    (e : exn) (w : world) :
  match write_fault 0 w with
  | Some e' => fst (on_exception func site t0 e w) = Raise e'
  | None =>
      fst (on_exception func site t0 e w) = Raise e
      /\ forall p, p = log_file site \/ p = func_log_file func site ->
           file_text p (snd (on_exception func site t0 e w))
           = file_text p w ++ unlines (error_entry (__name__ func) e (clock w - t0))
  end.
Proof.
  pose proof (log_files_differ func site) as D.
  rewrite on_exception_run, write_entry_two. unfold write_fault.
  destruct (fault_at 0 w) as [e0|]; [reflexivity|].
  destruct (fault_at 1 w) as [e1|]; [reflexivity|].
  split; [reflexivity|]. intros p [-> | ->]; cbn [snd].
  - rewrite file_text_written_other by congruence. apply file_text_written_same.
  - rewrite file_text_written_same. now rewrite file_text_written_other.
Qed.

(** When the write of the completion entry fails, the handler runs with
    that error, after [2 + opens_used 2 w] calls of [open]. *)
Lemma wrapper_completion_fault (func : callable) (site : call_site)
    (args : list value) (kwargs : list (string * value)) (w : world) (r : value) (e : exn) :
  outcome (body func args kwargs) = Ok r ->
  opens_succeed 2 w = true ->
  write_fault 2 w = Some e ->
  exists w4,
    wrapper func site args kwargs w = on_exception func site (clock w) e w4
    /\ (forall k, fault_at k w4 = fault_at (k + (2 + opens_used 2 w)) w)
    /\ (clock w4 - clock w = elapsed (body func args kwargs))%Z.
Proof.
  intros Hb H2 Hf. pose proof (opens_succeed_fault_at 2 w H2) as F.
  rewrite (wrapper_on_return _ _ _ _ _ r) by (auto with lia).
  rewrite write_entry_two, !fault_at_set_trace_hook, !fault_at_started.
  unfold write_fault, opens_used in *.
  destruct (fault_at 2 w) as [e2|].
  - injection Hf as ->. eexists. split; [reflexivity|]. split.
    + intros k. rewrite fault_at_pop, fault_at_set_trace_hook, fault_at_started.
      f_equal. lia.
    + rewrite clock_pop_fault, clock_set_trace_hook. apply clock_started.
  - rewrite Hf. eexists. split; [reflexivity|]. split.
    + intros k.
      rewrite fault_at_pop, fault_at_written, fault_at_set_trace_hook, fault_at_started.
      f_equal. lia.
    + rewrite clock_pop_fault, clock_written, clock_set_trace_hook. apply clock_started.
Qed.

(** C9, amended.  When the function has returned and the write of the
    completion entry raises an I/O error, the handler runs with that
    error: it tries to write the failure entry to both files.  If its
    write fails too, the handler's error is what the wrapper raises; if
    it succeeds, both files end with the failure entry, with its line
    [[END] Function execution failed], and the I/O error is re-raised.
    Either way the caller does not get the function's value. *)
Theorem completion_write_failure_reaches_handler (func : callable) (site : call_site)
    (args : list value) (kwargs : list (string * value)) (w : world) (r : value) (e : exn) :
  outcome (body func args kwargs) = Ok r ->
  opens_succeed 2 w = true ->
  write_fault 2 w = Some e ->
  let failure := error_entry (__name__ func) e (elapsed (body func args kwargs)) in
  (forall v, fst (wrapper func site args kwargs w) <> Ok v)
  /\ In "[END] Function execution failed" failure
  /\ match write_fault (2 + opens_used 2 w) w with
     | Some e' => fst (wrapper func site args kwargs w) = Raise e'
     | None =>
         fst (wrapper func site args kwargs w) = Raise e
         /\ forall p, p = log_file site \/ p = func_log_file func site ->
              exists before,
                file_text p (snd (wrapper func site args kwargs w))
                = before ++ unlines failure
     end.
Proof.
  intros Hb H2 Hf failure. subst failure.
  destruct (wrapper_completion_fault func site args kwargs w r e Hb H2 Hf)
    as (w4 & -> & Hshift & Hclock).
  pose proof (on_exception_by_write_fault func site (clock w) e w4) as H.
  rewrite (write_fault_shift (2 + opens_used 2 w) w w4) in H
    by (intros k; rewrite Hshift; f_equal).
  rewrite Hclock in H.
  split; [|split].
  - intros v Hv.
    destruct (write_fault (2 + opens_used 2 w) w); [|destruct H as [H _]]; congruence.
  - cbn. tauto.
  - destruct (write_fault (2 + opens_used 2 w) w) as [e'|]; [exact H|].
    destruct H as [H Hfiles]. split; [exact H|].
    intros p Hp. eexists. apply Hfiles, Hp.
Qed.

Lemma completion_write_failure_reaches_handler_witness :
  outcome (body divide [VInt 6; VInt 3] []) = Ok (VInt 2)
  /\ opens_succeed 2 (with_faults [None; None; None; Some disk_full]) = true
  /\ write_fault 2 (with_faults [None; None; None; Some disk_full]) = Some disk_full
  /\ fst (wrapper divide main_site [VInt 6; VInt 3] []
            (with_faults [None; None; None; Some disk_full])) = Raise disk_full.
Proof.
  split; [reflexivity|]. split; [reflexivity|]. split; [reflexivity|].
  exact (proj1 (proj2 (proj2 (completion_write_failure_reaches_handler divide main_site
                                [VInt 6; VInt 3] []
                                (with_faults [None; None; None; Some disk_full])
                                (VInt 2) disk_full eq_refl eq_refl eq_refl)))).
Defined.

(** ** The entry of a call without arguments *)

(** C10.  The entry of an invocation without positional arguments has the
    line [[ARGS] None], not an empty list, and the entry of an invocation
    without keyword arguments has the line [[KWARGS] None]; this entry is
    what the wrapper writes to both log files. *)
Theorem empty_arguments_logged_as_None :
  (forall func site kwargs,
      nth_error (entry_of func site [] kwargs) 5 = Some "[ARGS] None")
  /\ (forall func site args,
      nth_error (entry_of func site args []) 6 = Some "[KWARGS] None")
  /\ (forall func site args kwargs w p,
        opens_succeed 4 w = true ->
        p = log_file site \/ p = func_log_file func site ->
        exists rest,
          file_text p (snd (wrapper func site args kwargs w))
          = file_text p w ++ unlines (entry_of func site args kwargs) ++ rest).
Proof.
  split; [|split].
  - reflexivity.
  - reflexivity.
  - intros func site args kwargs w p H Hp. eexists.
    apply log_text_without_faults; assumption.
Qed.

Lemma empty_arguments_logged_as_None_witness :
  opens_succeed 4 fresh_world = true
  /\ nth_error (entry_of divide main_site [] []) 5 = Some "[ARGS] None"
  /\ nth_error (entry_of divide main_site [] []) 6 = Some "[KWARGS] None"
  /\ exists rest,
       file_text (log_file main_site) (snd (wrapper divide main_site [] [] fresh_world))
       = file_text (log_file main_site) fresh_world
           ++ unlines (entry_of divide main_site [] []) ++ rest.
Proof.
  split; [reflexivity|].
  split; [exact (proj1 empty_arguments_logged_as_None divide main_site [])|].
  split; [exact (proj1 (proj2 empty_arguments_logged_as_None) divide main_site [])|].
  exact (proj2 (proj2 empty_arguments_logged_as_None) divide main_site [] [] fresh_world
           (log_file main_site) eq_refl (or_introl eq_refl)).
Defined.

(** * Further properties of the code *)

(** ** The files only grow *)

Lemma grows_refl (p1 p2 : string) (w : world) : grows p1 p2 w w.
Proof.
  repeat split; try reflexivity.
  intros q. exists EmptyString. now rewrite append_nil_r.
Qed.

Lemma grows_trans (p1 p2 : string) (w1 w2 w3 : world) :
  grows p1 p2 w1 w2 -> grows p1 p2 w2 w3 -> grows p1 p2 w1 w3.
Proof.
  intros (A1 & B1 & C1) (A2 & B2 & C2). repeat split.
  - intros q. destruct (A1 q) as [r1 H1]. destruct (A2 q) as [r2 H2].
    exists (r1 ++ r2). now rewrite H2, H1, append_assoc.
  - intros q D1 D2. now rewrite B2, B1.
  - congruence.
Qed.

Lemma grows_same_files (p1 p2 : string) (w w' : world) :
  files w' = files w -> dirs w' = dirs w -> grows p1 p2 w w'.
Proof.
  intros Hf Hd. unfold grows, file_text. rewrite Hf. repeat split; try assumption.
  intros q. exists EmptyString. now rewrite append_nil_r.
Qed.

Lemma grows_written (p1 p2 p : string) (entry : list string) (w : world) :
  p = p1 \/ p = p2 -> grows p1 p2 w (written p entry w).
Proof.
  intros Hp. repeat split.
  - intros q. destruct (String.eqb_spec p q) as [<- | D].
    + exists (unlines entry). apply file_text_written_same.
    + exists EmptyString. now rewrite file_text_written_other, append_nil_r.
  - intros q D1 D2. apply file_text_written_other. destruct Hp; congruence.
Qed.

Lemma write_entry_grows (p1 p2 : string) (entry : list string) (w : world) :
  grows p1 p2 w (snd (write_entry [p1; p2] entry w)).
Proof.
  rewrite write_entry_two.
  destruct (fault_at 0 w); [now apply grows_same_files|].
  destruct (fault_at 1 w); cbn [snd].
  - apply grows_trans with (written p1 entry w); [apply grows_written; now left|].
    now apply grows_same_files.
  - apply grows_trans with (written p1 entry w); apply grows_written; auto.
Qed.

Lemma on_exception_world (func : callable) (site : call_site) (t0 : Z) (e : exn) (w : world) :
  snd (on_exception func site t0 e w)
  = snd (write_entry [log_file site; func_log_file func site]
           (error_entry (__name__ func) e (clock w - t0)) w).
Proof.
  rewrite on_exception_run.
  now destruct (write_entry _ _ w) as [[[]|e'] w'].
Qed.

Lemma on_exception_grows (func : callable) (site : call_site) (t0 : Z) (e : exn) (w : world) :
  grows (log_file site) (func_log_file func site) w (snd (on_exception func site t0 e w)).
Proof. rewrite on_exception_world. apply write_entry_grows. Qed.

Lemma execute_grows (func : callable) (site : call_site)
    (args : list value) (kwargs : list (string * value)) (t0 : Z) (w : world) :
  grows (log_file site) (func_log_file func site) w
        (snd (execute func site args kwargs t0 w)).
Proof.
  rewrite execute_run. cbn zeta.
  destruct (outcome (body func args kwargs)) as [r|e].
  - match goal with |- context [write_entry ?ps ?en ?ww] =>
      pose proof (write_entry_grows (log_file site) (func_log_file func site) en ww) as G;
      destruct (write_entry ps en ww) as [[[]|e'] w4] end; cbn [snd] in *.
    + eapply grows_trans; [|exact G]. now apply grows_same_files.
    + eapply grows_trans; [|apply on_exception_grows].
      eapply grows_trans; [|exact G]. now apply grows_same_files.
  - eapply grows_trans; [|apply on_exception_grows]. now apply grows_same_files.
Qed.

Lemma log_and_execute_grows (func : callable) (site : call_site)
    (args : list value) (kwargs : list (string * value)) (t0 : Z)
    (args_repr : list string) (kwargs_repr : list (string * string)) (w : world) :
  grows (log_file site) (func_log_file func site) w
        (snd (log_and_execute func site args kwargs t0 args_repr kwargs_repr w)).
Proof.
  rewrite log_and_execute_run. cbn zeta.
  destruct (fault_at 0 w); [now apply grows_same_files|].
  destruct (fault_at 1 w).
  - cbn [snd]. eapply grows_trans; [apply grows_written; now left|].
    now apply grows_same_files.
  - eapply grows_trans; [|apply execute_grows].
    eapply grows_trans; apply grows_written; auto.
Qed.

(** X1.  A log-write step only appends, whichever call of [open] fails:
    the text each file had before the step is a prefix of the text it has
    after it, and the files other than the two targets keep their
    text. *)
Theorem log_write_only_appends (p1 p2 : string) (entry : list string) (w : world) :
  (forall q, exists rest,
      file_text q (snd (write_entry [p1; p2] entry w)) = file_text q w ++ rest)
  /\ (forall q, q <> p1 -> q <> p2 ->
        file_text q (snd (write_entry [p1; p2] entry w)) = file_text q w).
Proof.
  destruct (write_entry_grows p1 p2 entry w) as (A & B & _). now split.
Qed.

(** ** The entry, the call and the console *)

Lemma file_text_entered (func : callable) (site : call_site) (entry : list string)
    (w : world) (p : string) :
  p = log_file site \/ p = func_log_file func site ->
  file_text p (written (func_log_file func site) entry (written (log_file site) entry w))
  = file_text p w ++ unlines entry.
Proof.
  pose proof (log_files_differ func site) as D. intros [-> | ->].
  - rewrite file_text_written_other by congruence. apply file_text_written_same.
  - rewrite file_text_written_same. now rewrite file_text_written_other.
Qed.

Lemma write_entry_ok (p1 p2 : string) (entry : list string) (w : world) :
  fst (write_entry [p1; p2] entry w) = Ok tt ->
  fault_at 0 w = None /\ fault_at 1 w = None.
Proof.
  rewrite write_entry_two.
  destruct (fault_at 0 w); [discriminate|].
  destruct (fault_at 1 w); [discriminate | now split].
Qed.

(** X3.  The entry is logged before the function is called: when the
    write of the entry completes, each of the two log files holds the
    entry right after its old text at the end of the invocation, whether
    the function returns or raises and whichever later write of the
    wrapper fails (the function itself being one that leaves the log
    files alone). *)
Theorem entry_logged_before_call (func : callable) (site : call_site)
    (args : list value) (kwargs : list (string * value)) (w : world) (p : string) :
  fst (write_entry [log_file site; func_log_file func site]
         (entry_of func site args kwargs) (ensure_log_dir w)) = Ok tt ->
  p = log_file site \/ p = func_log_file func site ->
  exists rest,
    file_text p (snd (wrapper func site args kwargs w))
    = file_text p w ++ unlines (entry_of func site args kwargs) ++ rest.
Proof.
  intros H Hp. apply write_entry_ok in H as [F0 F1].
  rewrite wrapper_run, log_and_execute_run, F0, F1. cbn zeta.
  fold (entry_of func site args kwargs).
  match goal with |- context [execute _ _ _ _ ?t ?ww] =>
    destruct (execute_grows func site args kwargs t ww) as (A & _ & _) end.
  destruct (A p) as [rest Hrest]. exists rest.
  rewrite Hrest, file_text_entered by assumption.
  now rewrite file_text_ensure_log_dir, append_assoc.
Qed.

Lemma entry_logged_before_call_witness :
  fst (write_entry [log_file main_site; func_log_file divide main_site]
         (entry_of divide main_site [VInt 1; VInt 0] [])
         (ensure_log_dir (with_faults [None; None; Some disk_full; Some disk_full])))
  = Ok tt
  /\ exists rest,
       file_text (log_file main_site)
         (snd (wrapper divide main_site [VInt 1; VInt 0] []
                 (with_faults [None; None; Some disk_full; Some disk_full])))
       = file_text (log_file main_site)
           (with_faults [None; None; Some disk_full; Some disk_full])
           ++ unlines (entry_of divide main_site [VInt 1; VInt 0] []) ++ rest.
Proof.
  split; [vm_compute; reflexivity|].
  apply (entry_logged_before_call divide main_site [VInt 1; VInt 0] []
           (with_faults [None; None; Some disk_full; Some disk_full])
           (log_file main_site)).
  - vm_compute. reflexivity.
  - now left.
Defined.

(** X4.  When the write of the entry fails, the function is not called:
    the wrapper raises the error of that write, no trace function is
    installed and the clock stands where it stood. *)
Theorem entry_write_failure_skips_the_call (func : callable) (site : call_site)
    (args : list value) (kwargs : list (string * value)) (w : world) (e : exn) :
  write_fault 0 w = Some e ->
  fst (wrapper func site args kwargs w) = Raise e
  /\ trace_hook (snd (wrapper func site args kwargs w)) = trace_hook w
  /\ clock (snd (wrapper func site args kwargs w)) = clock w.
Proof.
  unfold write_fault. intros H.
  rewrite wrapper_run, log_and_execute_run, !fault_at_ensure_log_dir. cbn zeta.
  destruct (fault_at 0 w) as [e0|].
  - injection H as ->. cbn [fst snd].
    rewrite clock_pop_fault, clock_ensure_log_dir.
    repeat split. apply trace_hook_ensure_log_dir.
  - rewrite H. cbn [fst snd].
    rewrite clock_pop_fault, clock_written, clock_ensure_log_dir.
    repeat split. apply trace_hook_ensure_log_dir.
Qed.

Lemma entry_write_failure_skips_the_call_witness :
  write_fault 0 (with_faults [None; Some permission_denied]) = Some permission_denied
  /\ fst (wrapper divide main_site [VInt 6; VInt 3] []
            (with_faults [None; Some permission_denied])) = Raise permission_denied
  /\ trace_hook (snd (wrapper divide main_site [VInt 6; VInt 3] []
                        (with_faults [None; Some permission_denied])))
     = trace_hook (with_faults [None; Some permission_denied])
  /\ clock (snd (wrapper divide main_site [VInt 6; VInt 3] []
                   (with_faults [None; Some permission_denied])))
     = clock (with_faults [None; Some permission_denied]).
Proof.
  split; [reflexivity|].
  exact (entry_write_failure_skips_the_call divide main_site [VInt 6; VInt 3] []
           (with_faults [None; Some permission_denied]) permission_denied eq_refl).
Defined.

(** X5.  A trace function installed before the invocation is not
    restored: when the entry has been written and the function returns,
    the invocation ends with no trace function installed, whatever was
    installed before it and whether or not the completion entry could be
    written. *)
Theorem previous_trace_function_not_restored (func : callable) (site : call_site)
    (args : list value) (kwargs : list (string * value)) (w : world) (r : value) :
  fst (write_entry [log_file site; func_log_file func site]
         (entry_of func site args kwargs) (ensure_log_dir w)) = Ok tt ->
  outcome (body func args kwargs) = Ok r ->
  trace_hook (snd (wrapper func site args kwargs w)) = None.
Proof.
  intros H Hb. apply write_entry_ok in H as [F0 F1].
  rewrite fault_at_ensure_log_dir in F0, F1.
  now apply (hook_after_return _ _ _ _ _ r).
Qed.

Lemma previous_trace_function_not_restored_witness :
  trace_hook (set_trace_hook (Some foreign_trace) (with_faults [None; None; Some disk_full]))
  = Some foreign_trace
  /\ fst (write_entry [log_file main_site; func_log_file divide main_site]
            (entry_of divide main_site [VInt 6; VInt 3] [])
            (ensure_log_dir
               (set_trace_hook (Some foreign_trace) (with_faults [None; None; Some disk_full]))))
     = Ok tt
  /\ outcome (body divide [VInt 6; VInt 3] []) = Ok (VInt 2)
  /\ trace_hook (snd (wrapper divide main_site [VInt 6; VInt 3] []
                        (set_trace_hook (Some foreign_trace)
                           (with_faults [None; None; Some disk_full])))) = None.
Proof.
  split; [reflexivity|]. split; [vm_compute; reflexivity|]. split; [reflexivity|].
  apply (previous_trace_function_not_restored divide main_site [VInt 6; VInt 3] []
           (set_trace_hook (Some foreign_trace) (with_faults [None; None; Some disk_full]))
           (VInt 2)).
  - vm_compute. reflexivity.
  - reflexivity.
Defined.

Lemma stdout_written (p : string) (entry : list string) (w : world) :
  stdout (written p entry w) = stdout w ++ unlines entry.
Proof. reflexivity. Qed.

(** X6.  A log-write step that completes prints every line of the entry
    twice, once for each target file and in the order of the files: the
    console receives the whole entry and then the whole entry again. *)
Theorem completed_log_write_prints_twice (p1 p2 : string) (entry : list string)
    (w : world) :
  fst (write_entry [p1; p2] entry w) = Ok tt ->
  stdout (snd (write_entry [p1; p2] entry w))
  = stdout w ++ unlines entry ++ unlines entry.
Proof.
  intros H. destruct (write_entry_ok _ _ _ _ H) as [F0 F1].
  rewrite write_entry_two, F0, F1. cbn [snd].
  now rewrite !stdout_written, append_assoc.
Qed.

Lemma completed_log_write_prints_twice_witness :
  fst (write_entry ["logs/a.log"; "logs/b.log"] ["one"; "two"] fresh_world) = Ok tt
  /\ stdout (snd (write_entry ["logs/a.log"; "logs/b.log"] ["one"; "two"] fresh_world))
     = stdout fresh_world ++ unlines ["one"; "two"] ++ unlines ["one"; "two"].
Proof.
  split; [vm_compute; reflexivity|].
  apply completed_log_write_prints_twice. vm_compute. reflexivity.
Defined.

(** ** What the trace function records *)

(** X8.  Every record of the nested calls comes from a ['call'] event of
    the run and from a function whose name does not start with an
    underscore: other events and private functions leave no record. *)
Theorem traced_records_only_public_calls (b : behaviour) (c : nested_call) :
  In c (traced b) ->
  startswith "_" (nc_function c) = false
  /\ exists fr, In ("call", fr) (events b) /\ c = record_of fr.
Proof.
  rewrite traced_in_call_order. intros H.
  apply in_map_iff in H as ([event fr] & <- & H).
  apply List.filter_In in H as [Hin Hrec].
  unfold recorded in Hrec. cbn [fst snd] in *.
  apply andb_prop in Hrec as [Hev Hname].
  apply String.eqb_eq in Hev. subst event.
  split.
  - unfold record_of. cbn [nc_function]. now apply negb_true_iff in Hname.
  - now exists fr.
Qed.

Lemma traced_records_only_public_calls_witness :
  In (record_of (Frame "make_handle" "/app/facefusion/handles.py" [] []))
     (traced (body make_handle [] []))
  /\ length (traced (body make_handle [] [])) = 1
  /\ startswith "_" "make_handle" = false.
Proof.
  split; [left; reflexivity|]. split; [reflexivity|].
  exact (proj1 (traced_records_only_public_calls (body make_handle [] [])
                  (record_of (Frame "make_handle" "/app/facefusion/handles.py" [] []))
                  (or_introl eq_refl))).
Defined.

Lemma dict_get_set_same {V} (k : string) (x : V) (d : list (string * V)) :
  dict_get k (dict_set k x d) = Some x.
Proof.
  induction d as [|[k0 x0] d IH]; cbn.
  - now rewrite String.eqb_refl.
  - destruct (String.eqb_spec k k0) as [->|D]; cbn.
    + now rewrite String.eqb_refl.
    + destruct (String.eqb_spec k k0); [contradiction | exact IH].
Qed.

Lemma format_frame_args_lookup_from (names : list string) (locals : list (string * value)) :
  forall (acc d : list (string * string)) (name : string),
    format_frame_args names locals acc = Ok d ->
    dict_get name d
    = if existsb (String.eqb name) names then
        match dict_get name locals with
        | Some x => match format_value x with Ok s => Some s | Raise _ => None end
        | None => dict_get name acc
        end
      else dict_get name acc.
Proof.
  induction names as [|name0 names IH]; intros acc d name H; cbn in H.
  - injection H as <-. reflexivity.
  - cbn [existsb].
    destruct (dict_get name0 locals) as [x0|] eqn:L0.
    + destruct (format_value x0) as [s0|e0] eqn:F0; [|discriminate].
      cbn in H. rewrite (IH _ _ name H).
      destruct (String.eqb_spec name name0) as [->|D]; cbn [orb].
      * rewrite L0, F0, dict_get_set_same. now destruct (existsb _ names).
      * rewrite dict_get_set_other by congruence. reflexivity.
    + rewrite (IH _ _ name H).
      destruct (String.eqb_spec name name0) as [->|D]; cbn [orb]; [|reflexivity].
      rewrite L0. now destruct (existsb _ names).
Qed.

(** X9.  The [args] of a record, looked up by name: a name has an entry
    exactly when it is a parameter of the frame that is bound in its
    locals, and the entry is the text [format_value] gives for the bound
    value; parameters that are not bound are left out without error. *)
Theorem format_frame_args_lookup (names : list string) (locals : list (string * value))
    (d : list (string * string)) (name : string) :
  format_frame_args names locals [] = Ok d ->
  dict_get name d
  = if existsb (String.eqb name) names then
      match dict_get name locals with
      | Some x => match format_value x with Ok s => Some s | Raise _ => None end
      | None => None
      end
    else None.
Proof. intros H. now rewrite (format_frame_args_lookup_from names locals [] d name H). Qed.

Lemma format_frame_args_lookup_witness :
  format_frame_args ["a"; "self"; "b"] [("b", VInt 3); ("a", VList [VNone])] []
  = Ok [("a", "list(len=1)"); ("b", "3")]
  /\ dict_get "self" [("a", "list(len=1)"); ("b", "3")] = None
  /\ dict_get "b" [("a", "list(len=1)"); ("b", "3")] = Some "3".
Proof.
  split; [reflexivity|]. split.
  - exact (format_frame_args_lookup ["a"; "self"; "b"] [("b", VInt 3); ("a", VList [VNone])]
             [("a", "list(len=1)"); ("b", "3")] "self" eq_refl).
  - exact (format_frame_args_lookup ["a"; "self"; "b"] [("b", VInt 3); ("a", VList [VNone])]
             [("a", "list(len=1)"); ("b", "3")] "b" eq_refl).
Defined.

(** ** What the entry shows of the arguments *)

Lemma sequence_Forall2 {A} (l : list (result A)) (r : list A) :
  sequence l = Ok r -> Forall2 (fun x y => x = Ok y) l r.
Proof.
  revert r. induction l as [|x l IH]; intros r H; cbn in H.
  - injection H as <-. constructor.
  - destruct x as [a|e]; [|discriminate]. cbn in H.
    destruct (sequence l) as [r'|e]; [|discriminate].
    injection H as <-. constructor; [reflexivity | now apply IH].
Qed.

Lemma format_kwargs_keeps_keys (kwargs : list (string * value)) :
  forall acc d,
    List.NoDup (map fst kwargs) ->
    (forall k, In k (map fst kwargs) -> dict_get k acc = None) ->
    format_kwargs kwargs acc = Ok d ->
    exists texts,
      Forall2 (fun kv s => format_value (snd kv) = Ok s) kwargs texts
      /\ d = app acc (combine (map fst kwargs) texts).
Proof.
  induction kwargs as [|[k x] kwargs IH]; intros acc d ND Fresh H; cbn in H.
  - injection H as <-. exists []. split; [constructor | now rewrite app_nil_r].
  - destruct (format_value x) as [s|e] eqn:Fx; [|discriminate]. cbn in H.
    cbn [map fst] in ND. inversion ND as [|? ? Hnotin ND']; subst.
    rewrite dict_set_fresh in H by (apply Fresh; now left).
    assert (Fresh' : forall k', In k' (map fst kwargs) -> dict_get k' (app acc [(k, s)]) = None).
    { intros k' Hin.
      rewrite <- dict_set_fresh by (apply Fresh; now left).
      rewrite dict_get_set_other; [apply Fresh; now right|].
      intros ->. contradiction. }
    destruct (IH _ _ ND' Fresh' H) as (texts & HF & ->).
    exists (s :: texts). split; [now constructor|].
    cbn. now rewrite <- app_assoc.
Qed.

(** X11.  When the arguments are formatted without error, [args_repr]
    has one text per positional argument, in order, each the
    [format_value] of its argument, and [kwargs_repr] has the keyword
    names in their order, each with the [format_value] of its value. *)
Theorem formatted_arguments_keep_shape (args : list value) (kwargs : list (string * value))
    (args_repr : list string) (kwargs_repr : list (string * string)) :
  List.NoDup (map fst kwargs) ->
  format_arguments args kwargs = Ok (args_repr, kwargs_repr) ->
  Forall2 (fun a s => format_value a = Ok s) args args_repr
  /\ exists texts,
       Forall2 (fun kv s => format_value (snd kv) = Ok s) kwargs texts
       /\ kwargs_repr = combine (map fst kwargs) texts.
Proof.
  intros ND H. unfold format_arguments in H.
  destruct (sequence (map format_value args)) as [ar|e] eqn:Ha; [|discriminate].
  cbn in H. destruct (format_kwargs kwargs []) as [kr|e] eqn:Hk; [|discriminate].
  cbn in H. injection H as <- <-. split.
  - apply sequence_Forall2 in Ha. clear Hk.
    revert ar Ha. induction args as [|a args IH]; intros ar Ha;
      inversion Ha; subst; constructor; auto.
  - destruct (format_kwargs_keeps_keys kwargs [] kr ND) as (texts & HF & ->); auto.
    now exists texts.
Qed.

Lemma formatted_arguments_keep_shape_witness :
  List.NoDup (map fst [("size", VTuple [VInt 3; VInt 4]); ("name", VStr "x")])
  /\ format_arguments [VInt 1; VNone]
       [("size", VTuple [VInt 3; VInt 4]); ("name", VStr "x")]
     = Ok (["1"; "None"], [("size", "tuple(len=2)"); ("name", "x")])
  /\ Forall2 (fun a s => format_value a = Ok s) [VInt 1; VNone] ["1"; "None"].
Proof.
  assert (ND : List.NoDup (map fst [("size", VTuple [VInt 3; VInt 4]); ("name", VStr "x")])).
  { cbn. constructor; [|constructor; [|constructor]]; cbn; intuition discriminate. }
  split; [exact ND|]. split; [reflexivity|].
  exact (proj1 (formatted_arguments_keep_shape [VInt 1; VNone]
                  [("size", VTuple [VInt 3; VInt 4]); ("name", VStr "x")]
                  ["1"; "None"] [("size", "tuple(len=2)"); ("name", "x")] ND eq_refl)).
Defined.

(** X12.  When formatting the arguments raised, the entry shows the
    placeholders in place of every argument: the [[ARGS]] line is
    [['<error formatting args>']] if there are positional arguments and
    the [[KWARGS]] line is the mapping from ['error'] to the message of
    the exception if there are keyword arguments. *)
Theorem formatting_failure_shown_in_entry (func : callable) (site : call_site)
    (args : list value) (kwargs : list (string * value)) (e : exn) :
  format_arguments args kwargs = Raise e ->
  (args <> [] ->
   nth_error (entry_of func site args kwargs) 5 = Some "[ARGS] ['<error formatting args>']")
  /\ (kwargs <> [] ->
      nth_error (entry_of func site args kwargs) 6
      = Some ("[KWARGS] {'error': " ++ repr_str (exn_msg e) ++ "}")).
Proof.
  intros H. unfold entry_of, formatted_arguments. rewrite H. split; intros Hne.
  - destruct args; [contradiction | reflexivity].
  - destruct kwargs; [contradiction|].
    unfold log_entry. cbn [nth_error fst snd]. unfold str_of_str_dict.
    cbn [map join fst snd].
    change (repr_str "error") with "'error'".
    rewrite !append_assoc. reflexivity.
Qed.

Lemma formatting_failure_shown_in_entry_witness :
  format_arguments [VInt 6; VDict [(unprintable, VNone)]] [("mode", VStr "fast")]
  = Raise repr_failure
  /\ nth_error (entry_of divide main_site [VInt 6; VDict [(unprintable, VNone)]]
                  [("mode", VStr "fast")]) 5
     = Some "[ARGS] ['<error formatting args>']"
  /\ nth_error (entry_of divide main_site [VInt 6; VDict [(unprintable, VNone)]]
                  [("mode", VStr "fast")]) 6
     = Some "[KWARGS] {'error': 'repr is broken'}".
Proof.
  split; [reflexivity|]. split.
  - apply (proj1 (formatting_failure_shown_in_entry divide main_site
                    [VInt 6; VDict [(unprintable, VNone)]] [("mode", VStr "fast")]
                    repr_failure eq_refl)).
    discriminate.
  - apply (proj2 (formatting_failure_shown_in_entry divide main_site
                    [VInt 6; VDict [(unprintable, VNone)]] [("mode", VStr "fast")]
                    repr_failure eq_refl)).
    discriminate.
Defined.

Lemma format_value_dict_keys_only (e1 e2 : list (value * value)) :
  map fst e1 = map fst e2 -> format_value (VDict e1) = format_value (VDict e2).
Proof. intros H. unfold format_value. cbn [isinstance_ArgumentParser isinstance_ndarray
  isinstance_list_tuple isinstance_dict dict_keys]. now rewrite H. Qed.

Lemma format_kwargs_same_texts (kw1 kw2 : list (string * value)) :
  Forall2 (fun a b => fst a = fst b /\ format_value (snd a) = format_value (snd b)) kw1 kw2 ->
  forall acc, format_kwargs kw1 acc = format_kwargs kw2 acc.
Proof.
  induction 1 as [|[k1 x1] [k2 x2] kw1 kw2 [Hk Hx] _ IH]; intros acc; [reflexivity|].
  cbn in *. subst k2. rewrite Hx.
  destruct (format_value x2); cbn; [apply IH | reflexivity].
Qed.

(** X13.  The entry depends on the arguments only through what
    [format_value] gives for them: two calls whose arguments have,
    position by position and name by name, the same [format_value] log
    the same entry.  [format_value] gives the same for two mappings with
    the same keys and for two lists, or two tuples, of the same length,
    so the values of a mapping argument and the items of a list argument
    do not reach the entry. *)
Theorem entry_shows_only_formatted_texts :
  (forall func site args1 args2 kwargs1 kwargs2,
      Forall2 (fun a b => format_value a = format_value b) args1 args2 ->
      Forall2 (fun a b : string * value =>
                 fst a = fst b /\ format_value (snd a) = format_value (snd b))
              kwargs1 kwargs2 ->
      entry_of func site args1 kwargs1 = entry_of func site args2 kwargs2)
  /\ (forall e1 e2 : list (value * value),
        map fst e1 = map fst e2 -> format_value (VDict e1) = format_value (VDict e2))
  /\ (forall l1 l2 : list value,
        List.length l1 = List.length l2 ->
        format_value (VList l1) = format_value (VList l2)
        /\ format_value (VTuple l1) = format_value (VTuple l2)).
Proof.
  split; [|split].
  - intros func site args1 args2 kwargs1 kwargs2 Ha Hk.
    assert (Hm : map format_value args1 = map format_value args2).
    { induction Ha as [|a b l1 l2 Hab _ IH]; cbn; [reflexivity | now rewrite Hab, IH]. }
    assert (Hf : formatted_arguments args1 kwargs1 = formatted_arguments args2 kwargs2).
    { unfold formatted_arguments, format_arguments.
      now rewrite Hm, (format_kwargs_same_texts kwargs1 kwargs2 Hk). }
    unfold entry_of. rewrite Hf. unfold log_entry.
    destruct Ha; destruct Hk; reflexivity.
  - exact format_value_dict_keys_only.
  - intros l1 l2 H. unfold format_value. cbn. now rewrite H.
Qed.

Lemma entry_shows_only_formatted_texts_witness :
  Forall2 (fun a b => format_value a = format_value b)
          [VDict [(VStr "password", VStr "hunter2")]] [VDict [(VStr "password", VStr "swordfish")]]
  /\ Forall2 (fun a b : string * value =>
                fst a = fst b /\ format_value (snd a) = format_value (snd b))
             [("frames", VList [VInt 1; VInt 2])] [("frames", VList [VInt 8; VInt 9])]
  /\ entry_of divide main_site [VDict [(VStr "password", VStr "hunter2")]]
       [("frames", VList [VInt 1; VInt 2])]
     = entry_of divide main_site [VDict [(VStr "password", VStr "swordfish")]]
         [("frames", VList [VInt 8; VInt 9])].
Proof.
  assert (Ha : Forall2 (fun a b => format_value a = format_value b)
                 [VDict [(VStr "password", VStr "hunter2")]]
                 [VDict [(VStr "password", VStr "swordfish")]]).
  { constructor; [|constructor].
    now apply (proj1 (proj2 entry_shows_only_formatted_texts)). }
  assert (Hk : Forall2 (fun a b : string * value =>
                          fst a = fst b /\ format_value (snd a) = format_value (snd b))
                 [("frames", VList [VInt 1; VInt 2])] [("frames", VList [VInt 8; VInt 9])]).
  { constructor; [|constructor]. split; reflexivity. }
  split; [exact Ha|]. split; [exact Hk|].
  exact (proj1 entry_shows_only_formatted_texts divide main_site _ _ _ _ Ha Hk).
Defined.

(** ** File names *)

Lemma chars_app (s1 s2 : string) : chars (s1 ++ s2) = app (chars s1) (chars s2).
Proof.
  unfold chars. induction s1 as [|c s1 IH]; cbn; [reflexivity | now rewrite IH].
Qed.

Lemma last_segment_no_slash (l : list ascii) :
  forall acc, contains_char "/"%char acc = false ->
              contains_char "/"%char (last_segment_from acc l) = false.
Proof.
  induction l as [|c l IH]; intros acc H; cbn [last_segment_from]; [exact H|].
  destruct (Ascii.eqb_spec c "/"%char) as [->|D].
  - now apply IH.
  - apply IH. unfold contains_char in *. rewrite chars_app, existsb_app, H.
    change (chars (String c EmptyString)) with [c]. cbn [existsb orb].
    destruct (Ascii.eqb_spec "/"%char c); [congruence | reflexivity].
Qed.

Lemma last_segment_plain (l : list ascii) :
  existsb (Ascii.eqb "/"%char) l = false ->
  forall acc, last_segment_from acc l = acc ++ string_of_list_ascii l.
Proof.
  induction l as [|c l IH]; intros H acc; cbn [last_segment_from string_of_list_ascii].
  - now rewrite append_nil_r.
  - cbn [existsb] in H. apply orb_false_elim in H as [Hc Hl].
    destruct (Ascii.eqb_spec c "/"%char) as [->|D].
    + now rewrite Ascii.eqb_refl in Hc.
    + rewrite (IH Hl), append_assoc. reflexivity.
Qed.

Lemma last_segment_after_slash (l1 l2 : list ascii) :
  existsb (Ascii.eqb "/"%char) l2 = false ->
  forall acc, last_segment_from acc (app l1 ("/"%char :: l2)) = string_of_list_ascii l2.
Proof.
  intros H. induction l1 as [|c l1 IH]; intros acc; cbn [app last_segment_from].
  - cbn. now rewrite (last_segment_plain l2 H).
  - destruct (Ascii.eqb c "/"%char); apply IH.
Qed.

(** X14.  The file names of the log, taken with [split('/')[-1]], are
    last path components: the name never holds a slash, a path without
    slash is its own name, and the name of [dir/name] is [name] when
    [name] holds no slash, whatever [dir] is. *)
Theorem last_path_segment_is_basename :
  (forall s, contains_char "/"%char (last_path_segment s) = false)
  /\ (forall name, contains_char "/"%char name = false -> last_path_segment name = name)
  /\ (forall dir name,
        contains_char "/"%char name = false ->
        last_path_segment (dir ++ "/" ++ name) = name).
Proof.
  split; [|split].
  - intros s. now apply last_segment_no_slash.
  - intros name H. unfold last_path_segment.
    rewrite (last_segment_plain _ H). cbn. apply string_of_list_ascii_of_string.
  - intros dir name H. unfold last_path_segment.
    rewrite chars_app. change (chars ("/" ++ name)) with ("/"%char :: chars name).
    rewrite (last_segment_after_slash _ _ H). apply string_of_list_ascii_of_string.
Qed.

Lemma last_path_segment_is_basename_witness :
  contains_char "/"%char "core.py" = false
  /\ last_path_segment ("/app/facefusion" ++ "/" ++ "core.py") = "core.py".
Proof.
  split; [reflexivity|].
  exact (proj2 (proj2 last_path_segment_is_basename) "/app/facefusion" "core.py" eq_refl).
Defined.

Lemma append_cancel_r (t : string) :
  forall s1 s2, s1 ++ t = s2 ++ t -> s1 = s2.
Proof.
  induction s1 as [|c s1 IH]; intros [|c' s2] H; cbn in H.
  - reflexivity.
  - apply (f_equal String.length) in H. cbn in H. rewrite length_append in H. lia.
  - apply (f_equal String.length) in H. cbn in H. rewrite length_append in H. lia.
  - injection H as -> H. f_equal. now apply IH.
Qed.

(** X15.  On a given day two callables log to the same per-callable file
    exactly when they have the same [__name__]: functions of the same
    name in different modules share one file, and that file is never the
    global one. *)
Theorem per_callable_file_shared_iff_same_name (f g : callable) (site : call_site) :
  (func_log_file f site = func_log_file g site <-> __name__ f = __name__ g)
  /\ func_log_file f site <> log_file site.
Proof.
  split; [split|].
  - unfold func_log_file, os_path_join, log_dir. intros H.
    cbn in H. repeat (injection H as H).
    now apply append_cancel_r in H.
  - intros H. unfold func_log_file. now rewrite H.
  - intros H. now apply (log_files_differ f site).
Qed.

(** ** A completion entry that reaches one file only *)

(** X16.  When the function has returned, the completion entry was
    written to the global file and the per-callable file then fails to
    open, the handler runs with that error: if its own write succeeds,
    the wrapper raises the error, the global file reports the invocation
    twice, as completed successfully and then as failed, and the
    per-callable file reports it as failed only. *)
Theorem half_written_completion_logged_twice (func : callable) (site : call_site)
    (args : list value) (kwargs : list (string * value)) (w : world) (r : value) (e : exn) :
  outcome (body func args kwargs) = Ok r ->
  opens_succeed 3 w = true ->
  fault_at 3 w = Some e -> fault_at 4 w = None -> fault_at 5 w = None ->
  let b := body func args kwargs in
  let entry := unlines (entry_of func site args kwargs) in
  let done := unlines (completion_entry (traced b) (result_text r) (elapsed b)) in
  let failed := unlines (error_entry (__name__ func) e (elapsed b)) in
  fst (wrapper func site args kwargs w) = Raise e
  /\ file_text (log_file site) (snd (wrapper func site args kwargs w))
     = file_text (log_file site) w ++ entry ++ done ++ failed
  /\ file_text (func_log_file func site) (snd (wrapper func site args kwargs w))
     = file_text (func_log_file func site) w ++ entry ++ failed.
Proof.
  intros Hb H3 F3 F4 F5 b entry done failed. subst b entry done failed.
  pose proof (opens_succeed_fault_at 3 w H3) as F.
  pose proof (log_files_differ func site) as D.
  rewrite (wrapper_on_return _ _ _ _ _ r) by (auto with lia).
  rewrite write_entry_two, !fault_at_set_trace_hook, !fault_at_started.
  rewrite (F 2) by lia. rewrite F3. cbv beta iota.
  rewrite on_exception_logged
    by (rewrite fault_at_pop, fault_at_written, fault_at_set_trace_hook, fault_at_started;
        assumption).
  rewrite clock_pop_fault, clock_written, clock_set_trace_hook, clock_started.
  cbn [fst snd]. split; [reflexivity|]. split.
  - rewrite file_text_written_other by congruence.
    rewrite file_text_written_same.
    change (file_text ?q (pop_fault ?x)) with (file_text q x).
    rewrite file_text_written_same.
    change (file_text ?q (set_trace_hook None ?x)) with (file_text q x).
    rewrite file_text_started by now left.
    now rewrite !append_assoc.
  - rewrite file_text_written_same.
    rewrite file_text_written_other by congruence.
    change (file_text ?q (pop_fault ?x)) with (file_text q x).
    rewrite file_text_written_other by congruence.
    change (file_text ?q (set_trace_hook None ?x)) with (file_text q x).
    rewrite file_text_started by now right.
    now rewrite !append_assoc.
Qed.

Lemma half_written_completion_logged_twice_witness :
  outcome (body divide [VInt 6; VInt 3] []) = Ok (VInt 2)
  /\ opens_succeed 3 (with_faults [None; None; None; Some disk_full]) = true
  /\ fault_at 3 (with_faults [None; None; None; Some disk_full]) = Some disk_full
  /\ occurs "[END] Function execution completed successfully"
       (file_text (log_file main_site)
          (snd (wrapper divide main_site [VInt 6; VInt 3] []
                  (with_faults [None; None; None; Some disk_full])))) = true
  /\ occurs "[END] Function execution failed"
       (file_text (log_file main_site)
          (snd (wrapper divide main_site [VInt 6; VInt 3] []
                  (with_faults [None; None; None; Some disk_full])))) = true.
Proof.
  split; [reflexivity|]. split; [reflexivity|]. split; [reflexivity|].
  rewrite (proj1 (proj2 (half_written_completion_logged_twice divide main_site
                           [VInt 6; VInt 3] [] (with_faults [None; None; None; Some disk_full])
                           (VInt 2) disk_full eq_refl eq_refl eq_refl eq_refl eq_refl))).
  split; vm_compute; reflexivity.
Defined.
